(** * jerich0: the captcha challenge lifecycle (captcha.go, server.go)

    A shallow embedding of the package-level API of the captcha package
    ([NewLen], [Reload], [WriteImage], [Verify], [VerifyString]) and of the
    HTTP handler ([captchaHandler.serve], [ServeHTTP]).

    Conventions.
    - A Go [byte] is a [Z] in [0,256); a conversion [byte(x)] is written out
      as [x mod 256].  A [[]byte] is a [list byte]; a nil slice and an empty
      slice both have length 0 and are both the empty list, except as the
      result of [Store.Get], where nil (the "not found" answer tested by
      [== nil]) is [None].
    - A Go [string] is a [String.string] (a sequence of bytes); the loop
      [for _, c := range s] visits the runes of its UTF-8 decoding, [runes].
    - Package state (the variable [globalStore], the entropy consumed by the
      random generators, the standard output written by the debug print of
      [Verify]) is threaded explicitly as a [world]. *)

From stdpp Require Import base option list strings gmap fin_maps relations.
From Stdlib Require Import ZArith Lia Ascii.

Local Open Scope Z_scope.

(** ** Bytes, runes and strings *)

Abbreviation byte := Z (only parsing).
Abbreviation rune := Z (only parsing).

Definition byte_of (x : Z) : byte := x mod 256.

Definition bytes_of_string (s : string) : list byte :=
  (λ a, Z.of_N (Ascii.N_of_ascii a)) <$> String.list_ascii_of_string s.

Definition RuneError : rune := 0xFFFD.

(** Continuation byte of a UTF-8 sequence. *)
Definition cont (b : byte) : bool := (0x80 <=? b) && (b <=? 0xBF).

(** For a lead byte: the length of the sequence it starts and the range
    accepted for the second byte (the table of Go's unicode/utf8). *)
Definition lead (b0 : byte) : option (Z * Z * Z) :=
  if (0xC2 <=? b0) && (b0 <=? 0xDF) then Some (2, 0x80, 0xBF)
  else if b0 =? 0xE0 then Some (3, 0xA0, 0xBF)
  else if b0 =? 0xED then Some (3, 0x80, 0x9F)
  else if (0xE1 <=? b0) && (b0 <=? 0xEF) then Some (3, 0x80, 0xBF)
  else if b0 =? 0xF0 then Some (4, 0x90, 0xBF)
  else if (0xF1 <=? b0) && (b0 <=? 0xF3) then Some (4, 0x80, 0xBF)
  else if b0 =? 0xF4 then Some (4, 0x80, 0x8F)
  else None.

(** The runes a [range] loop yields for a byte string: each well-formed
    UTF-8 sequence gives its code point, and a byte that starts no
    well-formed sequence gives [RuneError] and is skipped alone. *)
Fixpoint decode (s : list byte) : list rune :=
  match s with
  | [] => []
  | b0 :: t =>
    if b0 <? 0x80 then b0 :: decode t
    else
      match lead b0, t with
      | Some (size, lo, hi), b1 :: t1 =>
        if (lo <=? b1) && (b1 <=? hi) then
          if size =? 2 then
            Z.lor (Z.shiftl (Z.land b0 0x1F) 6) (Z.land b1 0x3F) :: decode t1
          else
            match t1 with
            | b2 :: t2 =>
              if cont b2 then
                if size =? 3 then
                  Z.lor (Z.lor (Z.shiftl (Z.land b0 0x0F) 12)
                               (Z.shiftl (Z.land b1 0x3F) 6))
                        (Z.land b2 0x3F) :: decode t2
                else
                  match t2 with
                  | b3 :: t3 =>
                    if cont b3 then
                      Z.lor (Z.lor (Z.lor (Z.shiftl (Z.land b0 0x07) 18)
                                          (Z.shiftl (Z.land b1 0x3F) 12))
                                   (Z.shiftl (Z.land b2 0x3F) 6))
                            (Z.land b3 0x3F) :: decode t3
                    else RuneError :: decode t
                  | [] => RuneError :: decode t
                  end
              else RuneError :: decode t
            | [] => RuneError :: decode t
            end
        else RuneError :: decode t
      | _, _ => RuneError :: decode t
      end
  end.

Definition runes (s : string) : list rune := decode (bytes_of_string s).

(** ** Errors, writers, the store interface and the package state *)

(** A Go [error] value that is not nil: the package's own [ErrNotFound]
    (compared by identity in [ServeHTTP]) or any other error, such as one
    returned by an [io.Writer]. *)
Inductive error :=
  | ErrNotFound
  | OtherError (msg : string).

#[global] Instance error_eq_dec : EqDecision error.
Proof. solve_decision. Defined.

(** [io.Writer]: [Write p] returns the number of bytes written and an
    error, and changes the writer. *)
Class Writer (W : Type) := {
  Write : list byte → W → (Z * option error) * W
}.

(** [bytes.Buffer]: [Write] appends and never returns an error. *)
#[global] Instance Buffer_Writer : Writer (list byte) := {
  Write p buf := ((Z.of_nat (length p), None), buf ++ p)
}.

(** The [Store] interface, as the calls [globalStore.Get(id, clear)] and
    [globalStore.Set(id, digits)] of captcha.go use it.  [Get] answers nil
    ([None]) or the digits; both may change the store. *)
Class Store (S : Type) := {
  Get : string → bool → S → option (list byte) * S;
  Set_ : string → list byte → S → S
}.

(** Modelled from the spec: the operating system's entropy that the absent
    random.go reads, as an unbounded tape of values and a cursor; a read of
    [n] bytes takes the next [n] values, each reduced to a byte. *)
Record RNG := { tape : nat → Z; pos : nat }.

Definition randomBytes (n : nat) (g : RNG) : list byte * RNG :=
  ((λ i, byte_of (tape g (pos g + i)%nat)) <$> seq 0 n,
   {| tape := tape g; pos := (pos g + n)%nat |}).

(** Modelled from the spec: [randomBytesMod(length, mod)] of the absent
    random.go, the SolutionGenerator that "produces a random sequence of
    character-class indices (0-35 ...) of configurable length": [length]
    random bytes, each reduced to a class index below [mod]. *)
Definition randomBytesMod (length : Z) (mod_ : byte) (g : RNG)
  : list byte * RNG :=
  let '(r, g') := randomBytes (Z.to_nat length) g in
  ((λ c, c mod mod_) <$> r, g').

(** Modelled from the spec: [RandomDigits(length)] of the absent random.go,
    which [Reload] calls for "a freshly generated [solution] of the same
    length": the same generator over the 36 classes.  Of its result the
    properties below use the length only. *)
Definition RandomDigits (length : Z) (g : RNG) : list byte * RNG :=
  randomBytesMod length 36 g.

(** The package state: the variable [globalStore], the entropy source, and
    the lines [Verify] prints on standard output (stored digits, input
    digits). *)
Record world (S : Type) := World {
  globalStore : S;
  entropy : RNG;
  stdout : list (list byte * list byte)
}.
Arguments World {S} _ _ _.
Arguments globalStore {S} _.
Arguments entropy {S} _.
Arguments stdout {S} _.

(** [SetCustomStore]: the variable [globalStore] takes a store of any
    implementation. *)
Definition SetCustomStore {S S' : Type} (s : S') (w : world S) : world S' :=
  World s (entropy w) (stdout w).

Definition DefaultLen : Z := 6.
Definition CollectNum : Z := 100.
(** [10 * time.Minute], in nanoseconds. *)
Definition Expiration : Z := 10 * (60 * 1000000000).

(** ** captcha.go *)

Section API.
Context {S : Type} `{!Store S}.

(** Modelled from the spec: [randomId] of the absent random.go, the
    IdGenerator that "produces cryptographically random opaque string
    identifiers"; the properties below depend on nothing about the
    identifiers, so it is a parameter. *)
Variable randomId : RNG → string * RNG.

(** The absent image.go: [NewImage(id, digits, width, height)] builds an
    image, possibly drawing entropy, and [WriteTo] writes its PNG
    encoding to a writer. *)
Context {Image : Type}.
Variable NewImage : string → list byte → Z → Z → RNG → Image * RNG.
Variable encodedPNG : Image → list byte.

Definition WriteTo {W : Type} `{!Writer W} (m : Image) (out : W)
  : (Z * option error) * W :=
  Write (encodedPNG m) out.

Definition NewLen (length : Z) (w : world S) : string * world S :=
  let '(id, g1) := randomId (entropy w) in
  let '(digits, g2) := randomBytesMod length 36 g1 in
  (id, World (Set_ id digits (globalStore w)) g2 (stdout w)).

Definition New (w : world S) : string * world S := NewLen DefaultLen w.

Definition Reload (id : string) (w : world S) : bool * world S :=
  let '(old, st) := Get id false (globalStore w) in
  match old with
  | None => (false, World st (entropy w) (stdout w))
  | Some old =>
    let '(digits, g) := RandomDigits (Z.of_nat (length old)) (entropy w) in
    (true, World (Set_ id digits st) g (stdout w))
  end.

Definition WriteImage {W : Type} `{!Writer W} (out : W) (id : string)
    (width height : Z) (w : world S) : option error * W * world S :=
  let '(d, st) := Get id false (globalStore w) in
  match d with
  | None => (Some ErrNotFound, out, World st (entropy w) (stdout w))
  | Some d =>
    let '(m, g) := NewImage id d width height (entropy w) in
    let '(_, err, out') := WriteTo m out in
    (err, out', World st g (stdout w))
  end.

Definition Verify (id : string) (digits : list byte) (w : world S)
  : bool * world S :=
  if (length digits =? 0)%nat then (false, w)
  else
    let '(reald, st) := Get id true (globalStore w) in
    match reald with
    | None => (false, World st (entropy w) (stdout w))
    | Some reald =>
      (bool_decide (digits = reald),
       World st (entropy w) (stdout w ++ [(reald, digits)]))
    end.

(** The loop of [VerifyString]: [ns] grows by one class index per rune;
    [None] is the [return false] of the [default] case. *)
Fixpoint toIndices (answer : list rune) (ns : list byte)
  : option (list byte) :=
  match answer with
  | [] => Some ns
  | c :: rest =>
    if (48 <=? c) && (c <=? 57) then          (* '0' <= c && c <= '9' *)
      toIndices rest (ns ++ [byte_of (c - 48)])
    else if (65 <=? c) && (c <=? 90) then     (* 'A' <= c && c <= 'Z' *)
      toIndices rest (ns ++ [byte_of (c - 65 + 10)])
    else if (97 <=? c) && (c <=? 122) then    (* 'a' <= c && c <= 'z' *)
      toIndices rest (ns ++ [byte_of (c - 97 + 10)])
    else None
  end.

Definition VerifyString (id : string) (answer : string) (w : world S)
  : bool * world S :=
  match toIndices (runes answer) [] with
  | None => (false, w)
  | Some ns => Verify id ns w
  end.

End API.

(** ** The default store *)

(** Modelled from the spec: the in-memory store of the absent store.go
    (section 3 "Store" and section 4.1): the live challenges with their
    [expiresAt], the counter of [Set] calls since the last sweep, the two
    configured values [NewMemoryStore] receives, and the reading of the
    clock ([time.Now()]) at the current call. *)
Record memoryStore := MemoryStore {
  entries : gmap string (list byte * Z);
  insertCount : Z;
  collectNum : Z;
  expiration : Z;
  clock : Z
}.

Definition NewMemoryStore (collectNum expiration : Z) (clock : Z)
  : memoryStore :=
  MemoryStore ∅ 0 collectNum expiration clock.

(** The environment lets time pass between two calls. *)
Definition tick (dt : Z) (s : memoryStore) : memoryStore :=
  MemoryStore (entries s) (insertCount s) (collectNum s) (expiration s)
              (clock s + dt).

(** Modelled from the spec: "[Sweep()]: removes all entries whose
    [expiresAt] has passed", and the counter "resets". *)
Definition Sweep (s : memoryStore) : memoryStore :=
  MemoryStore (filter (λ kv, clock s <= kv.2.2) (entries s)) 0
              (collectNum s) (expiration s) (clock s).

(** Modelled from the spec: "inserts with [expiresAt = now + TTL]", "a
    [Set] on an existing id overwrites in place", and the counter "when it
    crosses a configured threshold, triggers an eviction sweep" ("after
    every N [Create] calls"): the sweep runs on the call that brings the
    counter to [collectNum]. *)
Definition memoryStore_Set (id : string) (digits : list byte)
    (s : memoryStore) : memoryStore :=
  let s1 := MemoryStore (<[id := (digits, clock s + expiration s)]> (entries s))
                        (insertCount s + 1) (collectNum s) (expiration s)
                        (clock s) in
  if collectNum s1 <=? insertCount s1 then Sweep s1 else s1.

(** Modelled from the spec: "if no live, non-expired entry exists for [id],
    returns NotFound.  Otherwise returns a copy of the solution; if
    [consume] is true, atomically removes the entry".  NotFound is the nil
    slice, [None]; a solution that is found is never nil, also when it is
    empty.  An expired entry is left for the sweep. *)
Definition memoryStore_Get (id : string) (clear : bool) (s : memoryStore)
  : option (list byte) * memoryStore :=
  match entries s !! id with
  | Some (solution, expiresAt) =>
    if clock s <=? expiresAt then
      (Some solution,
       if clear then
         MemoryStore (delete id (entries s)) (insertCount s) (collectNum s)
                     (expiration s) (clock s)
       else s)
    else (None, s)
  | None => (None, s)
  end.

#[global] Instance memoryStore_Store : Store memoryStore := {
  Get := memoryStore_Get;
  Set_ := memoryStore_Set
}.

(** A live entry: present and not expired at the current clock. *)
Definition live (s : memoryStore) (id : string) (solution : list byte)
  : Prop :=
  ∃ expiresAt, entries s !! id = Some (solution, expiresAt)
               ∧ clock s <= expiresAt.

Definition is_live (s : memoryStore) (id : string) : Prop :=
  ∃ solution, live s id solution.

(** ** server.go *)

Record captchaHandler := { imgWidth : Z; imgHeight : Z }.

(** What the handler reads of an [*http.Request]. *)
Record Request := { URL_Path : string; FormValue : string → string }.

(** An [http.ResponseWriter]: its header map and what net/http has been
    given to send. *)
Record ResponseWriter := {
  header : gmap string (list string);
  sent : list byte
}.

(** [w.Header().Set(key, value)]. *)
Definition Header_Set (key value : string) (rw : ResponseWriter)
  : ResponseWriter :=
  {| header := <[key := [value]]> (header rw); sent := sent rw |}.

Section Server.
Context {S : Type} `{!Store S}.
Context {Image : Type}.
Variable NewImage : string → list byte → Z → Z → RNG → Image * RNG.
Variable encodedPNG : Image → list byte.

(** Functions of Go's net/http and path packages, which the handler calls
    and this repository does not define. *)
Variable http_NotFound : ResponseWriter → Request → ResponseWriter.
Variable http_ServeContent :
  ResponseWriter → Request → string → list byte → ResponseWriter.
Variable path_Split : string → string * string.
Variable path_Ext : string → string.
Variable path_Base : string → string.

Definition serve (h : captchaHandler) (rw : ResponseWriter) (r : Request)
    (id ext : string) (download : bool) (w : world S)
  : option error * ResponseWriter * world S :=
  let rw := Header_Set "Cache-Control" "no-cache, no-store, must-revalidate" rw in
  let rw := Header_Set "Pragma" "no-cache" rw in
  let rw := Header_Set "Expires" "0" rw in
  let content : list byte := [] in
  if decide (ext ≠ ".png") then (Some ErrNotFound, rw, w)
  else
    let rw := Header_Set "Content-Type" "image/png" rw in
    let '(err, content, w) :=
      WriteImage NewImage encodedPNG content id
                 (imgWidth h) (imgHeight h) w in
    match err with
    | Some e => (Some e, rw, w)
    | None =>
      let rw :=
        if download then Header_Set "Content-Type" "application/octet-stream" rw
        else rw in
      (None, http_ServeContent rw r (id +:+ ext) content, w)
    end.

(** [file[:len(file)-len(ext)]] is [substring 0 (len file - len ext) file];
    [path.Ext] returns a suffix of its argument, so the bound is in range. *)
Definition ServeHTTP (h : captchaHandler) (rw : ResponseWriter) (r : Request)
    (w : world S) : ResponseWriter * world S :=
  let '(dir, file) := path_Split (URL_Path r) in
  let ext := path_Ext file in
  let id := String.substring 0 (String.length file - String.length ext) file in
  if decide (ext = "" ∨ id = "") then (http_NotFound rw r, w)
  else
    let w :=
      if decide (FormValue r "reload" ≠ "") then (Reload id w).2 else w in
    let download := bool_decide (path_Base dir = "download") in
    let '(err, rw, w) := serve h rw r id ext download w in
    if decide (err = Some ErrNotFound) then (http_NotFound rw r, w)
    else (rw, w).

End Server.

(** ** The alphabet rule, in the words of the specification *)

(** "each integer indexes into the alphabet {0-9,A-Z}". *)
Definition alphabet : list rune := runes "0123456789ABCDEFGHIJKLMNOPQRSTUVWXYZ".

(** Letters are read "case-insensitive". *)
Definition upper (c : rune) : rune :=
  if (97 <=? c) && (c <=? 122) then c - 32 else c.

Fixpoint indexOf (x : rune) (l : list rune) : option Z :=
  match l with
  | [] => None
  | y :: l' => if x =? y then Some 0 else Z.succ <$> indexOf x l'
  end.

(** The class index of a character: its place in the alphabet. *)
Definition classIndex (c : rune) : option byte := indexOf (upper c) alphabet.

(** A character of 0-9, A-Z, a-z. *)
Definition alnum (c : rune) : Prop :=
  48 <= c <= 57 ∨ 65 <= c <= 90 ∨ 97 <= c <= 122.

#[global] Instance alnum_dec c : Decision (alnum c).
Proof. unfold alnum. apply _. Defined.


(** ** Observing the store *)

(** A call made on a store. *)
Inductive access :=
  | GetCall (id : string) (clear : bool)
  | SetCall (id : string) (digits : list byte).

(** A custom store (as [SetCustomStore] allows) that wraps another one and
    records every call made on it. *)
#[global] Instance recording_Store {S : Type} `{!Store S}
  : Store (S * list access) := {
  Get id clear sl :=
    let '(r, s') := Get id clear sl.1 in (r, (s', sl.2 ++ [GetCall id clear]));
  Set_ id digits sl :=
    (Set_ id digits sl.1, sl.2 ++ [SetCall id digits])
}.

(** ** Histories of the package over the default store *)

Section History.
Context {Image : Type}.
Variable randomId : RNG → string * RNG.
Variable NewImage : string → list byte → Z → Z → RNG → Image * RNG.
Variable encodedPNG : Image → list byte.

(** One event after which the challenge [id] has not been issued again:
    time passes, or the package is called with any arguments, a [NewLen]
    call drawing an id other than [id]. *)
Inductive step (id : string) (w : world memoryStore)
  : world memoryStore → Prop :=
  | step_tick dt :
      step id w (World (tick dt (globalStore w)) (entropy w) (stdout w))
  | step_NewLen length :
      (NewLen randomId length w).1 ≠ id →
      step id w (NewLen randomId length w).2
  | step_Reload id' :
      step id w (Reload id' w).2
  | step_WriteImage (W : Type) (wr : Writer W) (out : W) id' width height :
      step id w (WriteImage NewImage encodedPNG out id' width height w).2
  | step_Verify id' digits :
      step id w (Verify id' digits w).2
  | step_VerifyString id' answer :
      step id w (VerifyString id' answer w).2.

End History.

(** ** Go's path functions and sample data, for the examples *)

(** The index of the last occurrence of [c] in [s], if any. *)
Fixpoint lastIndex (c : Ascii.ascii) (s : string) : option nat :=
  match s with
  | EmptyString => None
  | String a s' =>
    match lastIndex c s' with
    | Some i => Some (Datatypes.S i)
    | None => if Ascii.eqb a c then Some 0%nat else None
    end
  end.

(** [s[i:]]. *)
Definition from (i : nat) (s : string) : string :=
  String.substring i (String.length s - i) s.

(** [path.Split]: the directory up to and including the last slash, and
    the file after it. *)
Definition go_path_Split (p : string) : string * string :=
  match lastIndex "/"%char p with
  | Some i => (String.substring 0 (i + 1) p, from (i + 1) p)
  | None => (EmptyString, p)
  end.

(** [path.Ext]: the suffix that starts at the last dot of the last
    slash-separated element, or the empty string. *)
Definition go_path_Ext (p : string) : string :=
  let file := (go_path_Split p).2 in
  match lastIndex "."%char file with
  | Some i => from i file
  | None => EmptyString
  end.

Fixpoint stripSlashes (fuel : nat) (p : string) : string :=
  match fuel with
  | O => p
  | Datatypes.S fuel' =>
    match String.length p with
    | O => p
    | Datatypes.S n =>
      if String.eqb (from n p) "/" then stripSlashes fuel' (String.substring 0 n p)
      else p
    end
  end.

(** [path.Base]: the last element, trailing slashes removed first. *)
Definition go_path_Base (p : string) : string :=
  if String.eqb p EmptyString then "."
  else
    let p := stripSlashes (String.length p) p in
    let p := (go_path_Split p).2 in
    if String.eqb p EmptyString then "/" else p.

(** A store created at time 1000 in which one challenge has been set. *)
Definition sampleStore : memoryStore :=
  memoryStore_Set "LBm5" [5; 6; 7; 8] (NewMemoryStore CollectNum Expiration 1000).

Definition sampleWorld : world memoryStore :=
  World sampleStore {| tape := λ n, Z.of_nat (7 * n + 3); pos := 0 |} [].

Definition sample_randomId (g : RNG) : string * RNG :=
  (String (Ascii.ascii_of_nat (65 + Z.to_nat (tape g (pos g) mod 26)))
          EmptyString,
   {| tape := tape g; pos := Datatypes.S (pos g) |}).

(** A stand-in renderer: the "image" of a solution is the solution. *)
Definition sample_NewImage (id : string) (digits : list byte)
    (width height : Z) (g : RNG) : list byte * RNG :=
  (digits, g).

Definition sample_NotFound (rw : ResponseWriter) (r : Request)
  : ResponseWriter :=
  {| header := header rw;
     sent := sent rw ++ bytes_of_string "404 page not found" |}.

Definition sample_ServeContent (rw : ResponseWriter) (r : Request)
    (name : string) (content : list byte) : ResponseWriter :=
  {| header := header rw; sent := sent rw ++ content |}.

Definition sampleRequest (p : string) : Request :=
  {| URL_Path := p; FormValue := λ _, EmptyString |}.

Definition emptyResponse : ResponseWriter := {| header := ∅; sent := [] |}.

(** ** capexample/main.go *)

(** The bytes of the UTF-8 encoding of a rune (Go's [utf8.EncodeRune]): a
    surrogate or a value out of range is encoded as [RuneError]. *)
Definition encodeRune (r : rune) : list byte :=
  if (0 <=? r) && (r <? 0x80) then [r]
  else if (0 <=? r) && (r <? 0x800) then
    [Z.lor 0xC0 (Z.shiftr r 6); Z.lor 0x80 (Z.land r 0x3F)]
  else if (r <? 0) || (0x10FFFF <? r) || ((0xD800 <=? r) && (r <=? 0xDFFF)) then
    [0xEF; 0xBF; 0xBD]
  else if r <? 0x10000 then
    [Z.lor 0xE0 (Z.shiftr r 12);
     Z.lor 0x80 (Z.land (Z.shiftr r 6) 0x3F);
     Z.lor 0x80 (Z.land r 0x3F)]
  else
    [Z.lor 0xF0 (Z.shiftr r 18);
     Z.lor 0x80 (Z.land (Z.shiftr r 12) 0x3F);
     Z.lor 0x80 (Z.land (Z.shiftr r 6) 0x3F);
     Z.lor 0x80 (Z.land r 0x3F)].

Definition string_of_bytes (l : list byte) : string :=
  String.string_of_list_ascii ((λ b, Ascii.ascii_of_N (Z.to_N b)) <$> l).

(** The conversion [string(x)] of an integer [x]: the UTF-8 text of the
    code point [x]. *)
Definition string_of_rune (r : rune) : string := string_of_bytes (encodeRune r).

(** The loop that both handlers run over a solution,
    [if b < 10 { str += string('0' + b) } else { str += string('A' + b - 10) }],
    in [byte] arithmetic; over a nil solution it leaves the empty string. *)
Definition solutionStr (solution : list byte) : string :=
  fold_left
    (λ str b,
       if b <? 10 then str +:+ string_of_rune (byte_of (48 + b))
       else str +:+ string_of_rune (byte_of (byte_of (65 + b) - 10)))
    solution EmptyString.

Definition debugMode : bool := true.

(** A line given to [log.Printf]: its arguments, in order. *)
Inductive logline :=
  | LogGenerated (id solution : string)
  | LogVerification (id expected received : string).

(** The expected solution a log line shows. *)
Definition shown (l : logline) : string :=
  match l with
  | LogGenerated _ solution => solution
  | LogVerification _ expected _ => expected
  end.

(** The state of the example program: the state of the captcha package, the
    program's own variable [globalStore] (a second store, made by
    [NewMemoryStore] in package main), and what it has logged. *)
Record app (S S' : Type) := App {
  package : world S;
  ownStore : S';
  logged : list logline
}.
Arguments App {S S'} _ _ _.
Arguments package {S S'} _.
Arguments ownStore {S S'} _.
Arguments logged {S S'} _.

(** [io.WriteString(w, s)] on a response; the handlers drop its result. *)
Definition WriteString (s : string) (rw : ResponseWriter) : ResponseWriter :=
  {| header := header rw; sent := sent rw ++ bytes_of_string s |}.

(** The line feed. *)
Definition LF : string := String (Ascii.ascii_of_nat 10) EmptyString.

Section Example.
Context {S : Type} `{!Store S} {S' : Type} `{!Store S'}.
Variable randomId : RNG → string * RNG.

(** Go's library, as the handlers use it: [http.NotFound], [http.Error],
    [formTemplate.Execute] on the captcha id, [err.Error()], and the [%q]
    verb of [fmt.Sprintf]. *)
Variable http_NotFound : ResponseWriter → Request → ResponseWriter.
Variable http_Error : ResponseWriter → string → Z → ResponseWriter.
Variable formTemplate_Execute :
  ResponseWriter → string → option error * ResponseWriter.
Variable Error_ : error → string.
Variable quoted : string → string.

Definition showFormHandler (rw : ResponseWriter) (r : Request)
    (st : app S S') : ResponseWriter * app S S' :=
  if decide (URL_Path r ≠ "/") then (http_NotFound rw r, st)
  else
    let '(id, pkg) := New randomId (package st) in
    let '(solution, own) := Get id false (ownStore st) in
    let lg :=
      if debugMode then
        logged st ++ [LogGenerated id (solutionStr (default [] solution))]
      else logged st in
    let '(err, rw) := formTemplate_Execute rw id in
    match err with
    | Some e => (http_Error rw (Error_ e) 500, App pkg own lg)
    | None => (rw, App pkg own lg)
    end.

Definition processFormHandler (rw : ResponseWriter) (r : Request)
    (st : app S S') : ResponseWriter * app S S' :=
  let rw := Header_Set "Content-Type" "text/html; charset=utf-8" rw in
  let id := FormValue r "captchaId" in
  let solution := FormValue r "captchaSolution" in
  let '(actualSolution, own) := Get id false (ownStore st) in
  let actualStr :=
    match actualSolution with
    | Some actualSolution => solutionStr actualSolution
    | None => EmptyString
    end in
  let lg := logged st ++ [LogVerification id actualStr solution] in
  let '(ok, pkg) := VerifyString id solution (package st) in
  let rw :=
    if negb ok then
      let rw := WriteString ("Wrong captcha solution! No robots allowed!" +:+ LF) rw in
      if debugMode then
        WriteString ("Debug info: Expected " +:+ quoted actualStr +:+ ", got "
                       +:+ quoted solution +:+ LF) rw
      else rw
    else WriteString ("Great job, human! You solved the captcha." +:+ LF) rw in
  (WriteString "<br><a href='/'>Try another one</a>" rw, App pkg own lg).

(** One request served by the example program. *)
Inductive served (st : app S S') : app S S' → Prop :=
  | served_showForm rw r : served st (showFormHandler rw r st).2
  | served_processForm rw r : served st (processFormHandler rw r st).2.

End Example.

(** Every solution stored under [id] has length [n]. *)
Definition sized (id : string) (n : nat) (w : world memoryStore) : Prop :=
  ∀ solution e,
    entries (globalStore w) !! id = Some (solution, e) → length solution = n.

(** Sample data for the example program. *)
Definition sample_Error (rw : ResponseWriter) (msg : string) (code : Z)
  : ResponseWriter :=
  WriteString msg rw.

Definition sample_Execute (rw : ResponseWriter) (id : string)
  : option error * ResponseWriter :=
  (None, WriteString id rw).

Definition sample_ErrorText (e : error) : string :=
  match e with
  | ErrNotFound => "captcha: id not found"
  | OtherError msg => msg
  end.

Definition sampleReload (p : string) : Request :=
  {| URL_Path := p;
     FormValue := λ k, if String.eqb k "reload" then "1" else EmptyString |}.

Definition sampleForm (id solution : string) : Request :=
  {| URL_Path := "/process";
     FormValue := λ k,
       if String.eqb k "captchaId" then id
       else if String.eqb k "captchaSolution" then solution
       else EmptyString |}.

Definition sampleApp : app memoryStore memoryStore :=
  App sampleWorld (NewMemoryStore CollectNum Expiration 1000) [].

(** * Properties *)

Example runes_ascii : runes "aZ9" = [97; 90; 57].
Proof. reflexivity. Qed.

Example runes_two_bytes : decode [0xC3; 0xA9; 0x41] = [0xE9; 0x41].
Proof. reflexivity. Qed.

Example runes_three_bytes : decode [0xE2; 0x82; 0xAC] = [0x20AC].
Proof. reflexivity. Qed.

Example runes_four_bytes : decode [0xF0; 0x9F; 0x98; 0x80] = [0x1F600].
Proof. reflexivity. Qed.

Example runes_invalid : decode [0xFF; 0x31; 0xC3] = [RuneError; 0x31; RuneError].
Proof. reflexivity. Qed.

Example classIndex_0 : classIndex 48 = Some 0.
Proof. reflexivity. Qed.

Example classIndex_9 : classIndex 57 = Some 9.
Proof. reflexivity. Qed.

Example classIndex_A : classIndex 65 = Some 10 ∧ classIndex 97 = Some 10.
Proof. split; reflexivity. Qed.

Example classIndex_Z : classIndex 90 = Some 35 ∧ classIndex 122 = Some 35.
Proof. split; reflexivity. Qed.

Example classIndex_other : classIndex 45 = None ∧ classIndex 0xE9 = None.
Proof. split; reflexivity. Qed.

(** ** The conversion loop of [VerifyString] *)

Lemma byte_of_small (x : Z) : 0 <= x < 256 → byte_of x = x.
Proof. intros Hx. unfold byte_of. by apply Z.mod_small. Qed.

Lemma forallb_range (f : Z → bool) (lo : Z) (n : nat) :
  forallb f ((λ i, lo + Z.of_nat i) <$> seq 0 n) = true →
  ∀ c, lo <= c < lo + Z.of_nat n → f c = true.
Proof.
  intros Hall c Hc. rewrite forallb_forall in Hall. apply Hall.
  apply list_elem_of_In, list_elem_of_fmap. exists (Z.to_nat (c - lo)). split.
  - lia.
  - apply list_elem_of_In, in_seq. lia.
Qed.

Lemma indexOf_None (x : rune) (l : list rune) : x ∉ l → indexOf x l = None.
Proof.
  induction l as [|y l IH]; intros Hx; [done|]. simpl.
  apply not_elem_of_cons in Hx as [Hxy Hl].
  destruct (Z.eqb_spec x y); [done|]. by rewrite IH.
Qed.

Lemma alphabet_range (x : rune) :
  x ∈ alphabet → 48 <= x <= 57 ∨ 65 <= x <= 90.
Proof.
  intros Hx.
  assert (Hall : Forall (λ x, 48 <= x <= 57 ∨ 65 <= x <= 90) alphabet).
  { apply Forall_forall. intros y Hy. apply list_elem_of_In in Hy.
    vm_compute in Hy. intuition lia. }
  by eapply Forall_forall in Hall.
Qed.

Ltac in_range f lo n c :=
  let H := fresh in
  assert (H : f c = true)
    by (apply (forallb_range f lo n); [by vm_compute | lia]);
  apply bool_decide_eq_true_1 in H.

(** The place in the alphabet, in closed form: the three cases of the
    [switch] in [VerifyString], and no index for any other character. *)
Lemma classIndex_closed (c : rune) :
  classIndex c =
    if (48 <=? c) && (c <=? 57) then Some (c - 48)
    else if (65 <=? c) && (c <=? 90) then Some (c - 65 + 10)
    else if (97 <=? c) && (c <=? 122) then Some (c - 97 + 10)
    else None.
Proof.
  destruct ((48 <=? c) && (c <=? 57)) eqn:Hd.
  { apply andb_true_iff in Hd as [?%Z.leb_le ?%Z.leb_le].
    by in_range (λ c : rune, bool_decide (classIndex c = Some (c - 48))) 48 10%nat c. }
  destruct ((65 <=? c) && (c <=? 90)) eqn:Hu.
  { apply andb_true_iff in Hu as [?%Z.leb_le ?%Z.leb_le].
    by in_range (λ c : rune, bool_decide (classIndex c = Some (c - 65 + 10))) 65 26%nat c. }
  destruct ((97 <=? c) && (c <=? 122)) eqn:Hl.
  { apply andb_true_iff in Hl as [?%Z.leb_le ?%Z.leb_le].
    by in_range (λ c : rune, bool_decide (classIndex c = Some (c - 97 + 10))) 97 26%nat c. }
  apply indexOf_None. intros Hin%alphabet_range. unfold upper in Hin.
  rewrite Hl in Hin.
  apply andb_false_iff in Hd, Hu. rewrite !Z.leb_gt in Hd, Hu. lia.
Qed.

Lemma classIndex_alnum (c : rune) : is_Some (classIndex c) ↔ alnum c.
Proof.
  rewrite classIndex_closed. unfold alnum.
  repeat (case_match; [rewrite ?andb_true_iff, ?Z.leb_le in *; split; [intros _; lia | by eauto] |]).
  rewrite ?andb_false_iff, ?Z.leb_gt in *. split; [by intros [? ?] | lia].
Qed.

Lemma classIndex_range (c : rune) (i : byte) :
  classIndex c = Some i → 0 <= i < 36.
Proof.
  rewrite classIndex_closed.
  repeat (case_match; [rewrite ?andb_true_iff, ?Z.leb_le in *; intros [= <-]; lia |]).
  done.
Qed.

(** The loop computes the class index of every rune, in order, and gives
    up at the first rune that has none. *)
Lemma toIndices_mapM (answer : list rune) (ns : list byte) :
  toIndices answer ns = (ns ++.) <$> mapM classIndex answer.
Proof.
  revert ns. induction answer as [|c rest IH]; intros ns; simpl.
  { by rewrite app_nil_r. }
  rewrite classIndex_closed.
  repeat (case_match;
    [rewrite ?andb_true_iff, ?Z.leb_le in *; rewrite IH, byte_of_small by lia;
     simpl; destruct (mapM classIndex rest); simpl; [by rewrite <- app_assoc | done] |]).
  done.
Qed.

Lemma toIndices_invalid (answer : list rune) (ns : list byte) :
  (∃ c, c ∈ answer ∧ ¬ alnum c) → toIndices answer ns = None.
Proof.
  intros (c & Hin & Hc). rewrite toIndices_mapM.
  destruct (mapM classIndex answer) as [l|] eqn:Hl; [|done].
  apply mapM_Some_1 in Hl.
  destruct (proj1 (list_elem_of_lookup _ _) Hin) as [i Hi].
  destruct (Forall2_lookup_l _ _ _ _ _ Hl Hi) as (y & _ & Hy).
  destruct Hc. apply classIndex_alnum. by exists y.
Qed.

Lemma toIndices_valid (answer : list rune) :
  Forall alnum answer →
  ∃ s, mapM classIndex answer = Some s ∧ toIndices answer [] = Some s.
Proof.
  intros Hall. rewrite toIndices_mapM.
  assert (His : is_Some (mapM classIndex answer)).
  { apply mapM_is_Some. eapply Forall_impl; [done|].
    intros c Hc. by apply classIndex_alnum. }
  destruct His as [s Hs]. exists s. by rewrite Hs.
Qed.

(** ** Verification over any store *)

Section AnyStore.
Context {S : Type} `{!Store S}.
Implicit Types (id : string) (w : world S).

Lemma Verify_unfold id digits w :
  digits ≠ [] →
  Verify id digits w =
    match (Get id true (globalStore w)).1 with
    | None => (false, World (Get id true (globalStore w)).2 (entropy w) (stdout w))
    | Some reald =>
      (bool_decide (digits = reald),
       World (Get id true (globalStore w)).2 (entropy w)
             (stdout w ++ [(reald, digits)]))
    end.
Proof.
  intros Hd. unfold Verify. destruct digits; [done|]. simpl.
  by destruct (Get id true (globalStore w)) as [[reald|] st].
Qed.

(** C4.  An empty attempt is rejected before the store is reached:
    [Verify(id, attempt)] with an attempt of length 0 (nil or empty) and
    [VerifyString(id, "")] return false and leave the whole package state,
    the store included, as it was, whatever the store implementation is
    (also one that records the calls made on it). *)
Theorem Verify_empty_rejected id w :
  Verify id [] w = (false, w) ∧ VerifyString id "" w = (false, w).
Proof. split; reflexivity. Qed.

(** C2.  If [text] has a character outside 0-9, A-Z, a-z, then
    [VerifyString(id, text)] returns false and the package state is left
    as it was: no call reaches the store, whatever its implementation, so
    the challenge is not consumed. *)
Theorem VerifyString_invalid_char_rejected id text w :
  (∃ c, c ∈ runes text ∧ ¬ alnum c) →
  VerifyString id text w = (false, w).
Proof.
  intros Hc. unfold VerifyString. by rewrite toIndices_invalid.
Qed.

(** C8.  [VerifyString] turns its input into class indices by the alphabet
    rule ([classIndex]: a digit gives 0-9, a letter of either case gives
    10-35, anything else gives none) and verifies those indices: it returns
    true exactly when every character has an index, there is at least one,
    and the indices are the solution the store hands out for [id]. *)
Theorem VerifyString_alphabet_rule id text w :
  (∀ c, 48 <= c <= 57 → classIndex c = Some (c - 48))
  ∧ (∀ c, 65 <= c <= 90 →
       classIndex c = Some (c - 65 + 10)
       ∧ classIndex (c + 32) = Some (c - 65 + 10))
  ∧ (∀ c, ¬ alnum c → classIndex c = None)
  ∧ VerifyString id text w =
      match mapM classIndex (runes text) with
      | Some ns => Verify id ns w
      | None => (false, w)
      end
  ∧ ((VerifyString id text w).1 = true ↔
       ∃ ns, mapM classIndex (runes text) = Some ns ∧ ns ≠ []
             ∧ (Get id true (globalStore w)).1 = Some ns).
Proof.
  split_and!.
  - intros c Hc. rewrite classIndex_closed.
    by rewrite (proj2 (andb_true_iff _ _)) by (rewrite !Z.leb_le; lia).
  - intros c Hc. rewrite !classIndex_closed.
    rewrite (proj2 (andb_false_iff (48 <=? c) _)) by (rewrite !Z.leb_gt; lia).
    rewrite (proj2 (andb_true_iff (65 <=? c) _)) by (rewrite !Z.leb_le; lia).
    rewrite (proj2 (andb_false_iff (48 <=? c + 32) _)) by (rewrite !Z.leb_gt; lia).
    rewrite (proj2 (andb_false_iff (65 <=? c + 32) _)) by (rewrite !Z.leb_gt; lia).
    rewrite (proj2 (andb_true_iff (97 <=? c + 32) _)) by (rewrite !Z.leb_le; lia).
    split; f_equal; lia.
  - intros c Hc. destruct (classIndex c) eqn:Hi; [|done].
    destruct Hc. apply classIndex_alnum. by eexists.
  - unfold VerifyString. rewrite toIndices_mapM.
    by destruct (mapM classIndex (runes text)).
  - unfold VerifyString. rewrite toIndices_mapM.
    destruct (mapM classIndex (runes text)) as [ns|]; simpl.
    + destruct (decide (ns = [])) as [->|Hne].
      { simpl. split; [done|]. by intros (? & [= <-] & ? & _). }
      rewrite Verify_unfold by done.
      destruct (Get id true (globalStore w)) as [[reald|] st]; simpl.
      * rewrite bool_decide_eq_true. split.
        -- intros ->. by exists reald.
        -- by intros (? & [= <-] & _ & [= <-]).
      * split; [done|]. by intros (? & _ & _ & ?).
    + split; [done|]. by intros (? & ? & _).
Qed.

(** C9.  On a text made only of characters of 0-9, A-Z, a-z,
    [VerifyString(id, text)] is [Verify(id, s)] for the sequence [s] of the
    class indices of its characters: the same answer and the same package
    state afterwards, so the one consumes the challenge exactly when the
    other does. *)
Theorem VerifyString_is_Verify id text w :
  Forall alnum (runes text) →
  ∃ s, mapM classIndex (runes text) = Some s
       ∧ VerifyString id text w = Verify id s w.
Proof.
  intros Hall. destruct (toIndices_valid _ Hall) as (s & Hs & Hsrc).
  exists s. split; [done|]. unfold VerifyString. by rewrite Hsrc.
Qed.

End AnyStore.

(** ** The handler *)

Section ServerProperties.
Context {S : Type} `{!Store S}.
Context {Image : Type}.
Variable NewImage : string → list byte → Z → Z → RNG → Image * RNG.
Variable encodedPNG : Image → list byte.
Variable http_NotFound : ResponseWriter → Request → ResponseWriter.
Variable http_ServeContent :
  ResponseWriter → Request → string → list byte → ResponseWriter.
Variable path_Split : string → string * string.
Variable path_Ext : string → string.
Variable path_Base : string → string.

(** C10.  The handler serves ".png" only.  For any other extension [serve]
    returns [ErrNotFound] having set the three no-cache headers and nothing
    else: the package state is as before (no call reaches the store,
    whatever its implementation) and nothing is given to the response to
    send.  [ServeHTTP] then answers such a request with [http.NotFound]. *)
Theorem serve_only_png h rw r (w : world S) :
  (∀ id ext download, ext ≠ ".png" →
     serve NewImage encodedPNG http_ServeContent h rw r id ext download w =
       (Some ErrNotFound,
        Header_Set "Expires" "0"
          (Header_Set "Pragma" "no-cache"
             (Header_Set "Cache-Control" "no-cache, no-store, must-revalidate"
                         rw)),
        w))
  ∧ (path_Ext (path_Split (URL_Path r)).2 ≠ ".png" →
     ∃ rw', (ServeHTTP NewImage encodedPNG http_NotFound http_ServeContent
                       path_Split path_Ext path_Base h rw r w).1
              = http_NotFound rw' r
            ∧ sent rw' = sent rw).
Proof.
  assert (Hserve : ∀ w' id ext download, ext ≠ ".png" →
     serve NewImage encodedPNG http_ServeContent h rw r id ext download w' =
       (Some ErrNotFound,
        Header_Set "Expires" "0"
          (Header_Set "Pragma" "no-cache"
             (Header_Set "Cache-Control" "no-cache, no-store, must-revalidate"
                         rw)),
        w')).
  { intros w' id ext download Hext. unfold serve. by rewrite decide_True. }
  split; [by apply Hserve|].
  intros Hext. unfold ServeHTTP.
  destruct (path_Split (URL_Path r)) as [dir file]. simpl in Hext.
  case_decide; [by exists rw|].
  rewrite Hserve by done. rewrite decide_True by done.
  by eexists.
Qed.

End ServerProperties.

(** ** The default store *)

Section MemoryStore.
Implicit Types (s : memoryStore) (id : string).

Lemma Get_not_live s id clear : ¬ is_live s id → Get id clear s = (None, s).
Proof.
  intros Hn. simpl. unfold memoryStore_Get.
  destruct (entries s !! id) as [[solution expiresAt]|] eqn:He; [|done].
  destruct (Z.leb_spec (clock s) expiresAt); [|done].
  destruct Hn. by exists solution, expiresAt.
Qed.

Lemma Get_live_keep s id solution :
  live s id solution → Get id false s = (Some solution, s).
Proof.
  intros (e & He & Hle). simpl. unfold memoryStore_Get. rewrite He.
  by rewrite (proj2 (Z.leb_le _ _)).
Qed.

Lemma Get_live_clear s id solution :
  live s id solution →
  Get id true s =
    (Some solution,
     MemoryStore (delete id (entries s)) (insertCount s) (collectNum s)
                 (expiration s) (clock s)).
Proof.
  intros (e & He & Hle). simpl. unfold memoryStore_Get. rewrite He.
  by rewrite (proj2 (Z.leb_le _ _)).
Qed.

Lemma Get_Some s id clear solution :
  (Get id clear s).1 = Some solution → live s id solution.
Proof.
  simpl. unfold memoryStore_Get.
  destruct (entries s !! id) as [[sol e]|] eqn:He; [|done].
  destruct (Z.leb_spec (clock s) e); [|done].
  intros [= <-]. by exists e.
Qed.

(** A lookup never adds an entry. *)
Lemma Get_absent s id id' clear :
  entries s !! id = None → entries (Get id' clear s).2 !! id = None.
Proof.
  intros Hid. simpl. unfold memoryStore_Get.
  destruct (entries s !! id') as [[sol e]|]; [|done].
  destruct (clock s <=? e); [|done].
  destruct clear; [|done]. simpl.
  destruct (decide (id' = id)) as [->|Hne].
  - apply lookup_delete_eq.
  - by rewrite lookup_delete_ne.
Qed.

Lemma Sweep_absent s id :
  entries s !! id = None → entries (Sweep s) !! id = None.
Proof. intros Hid. simpl. apply map_lookup_filter_None. by left. Qed.

(** [Set] adds an entry under its own id only. *)
Lemma Set_absent s id id' digits :
  id' ≠ id → entries s !! id = None →
  entries (Set_ id' digits s) !! id = None.
Proof.
  intros Hne Hid. simpl. unfold memoryStore_Set. simpl.
  case_match.
  - apply Sweep_absent. simpl. by rewrite lookup_insert_ne.
  - simpl. by rewrite lookup_insert_ne.
Qed.

(** With a time-to-live that is not negative, the entry [Set] writes is
    there afterwards, also when the call triggers a sweep. *)
Lemma Set_lookup s id digits :
  0 <= expiration s →
  entries (Set_ id digits s) !! id = Some (digits, clock s + expiration s)
  ∧ clock (Set_ id digits s) = clock s
  ∧ expiration (Set_ id digits s) = expiration s.
Proof.
  intros Httl. simpl. unfold memoryStore_Set. simpl.
  case_match; simpl; [|by rewrite lookup_insert_eq].
  split; [|done]. apply map_lookup_filter_Some. split.
  - by rewrite lookup_insert_eq.
  - simpl. lia.
Qed.

Lemma Set_live s id digits :
  0 <= expiration s → live (Set_ id digits s) id digits.
Proof.
  intros Httl. destruct (Set_lookup s id digits Httl) as (He & Hc & _).
  exists (clock s + expiration s). rewrite Hc. split; [done | lia].
Qed.

(** [Set] creates no entry under another id. *)
Lemma Set_dom s id digits :
  dom (entries (Set_ id digits s)) ⊆ {[id]} ∪ dom (entries s).
Proof.
  simpl. unfold memoryStore_Set. simpl.
  case_match; simpl.
  - etrans; [apply dom_filter_subseteq|]. by rewrite dom_insert_L.
  - by rewrite dom_insert_L.
Qed.

End MemoryStore.

(** ** Generated solutions *)

Lemma randomBytesMod_spec (length : Z) (m : byte) (g : RNG) :
  0 < m →
  List.length (randomBytesMod length m g).1 = Z.to_nat length
  ∧ Forall (λ d, 0 <= d < m) (randomBytesMod length m g).1.
Proof.
  intros Hm. unfold randomBytesMod, randomBytes. simpl. split.
  - by rewrite !length_fmap, length_seq.
  - apply Forall_fmap, Forall_forall. intros c _. simpl.
    by apply Z.mod_pos_bound.
Qed.

(** ** The package over the default store *)

Section DefaultStore.
Context {Image : Type}.
Variable randomId : RNG → string * RNG.
Variable NewImage : string → list byte → Z → Z → RNG → Image * RNG.
Variable encodedPNG : Image → list byte.
Implicit Types (id : string) (w : world memoryStore) (s : memoryStore).

(** C3.  On a live entry, [Get(id, consume=true)] returns the solution and
    removes the entry, and only that entry, in the same operation; a
    [Get(id, consume=false)] that follows, at once or after any lapse of
    time, returns NotFound. *)
Theorem Get_consume_exactly_once s id solution :
  live s id solution →
  ∃ s', Get id true s = (Some solution, s')
        ∧ entries s' !! id = None
        ∧ (∀ id', id' ≠ id → entries s' !! id' = entries s !! id')
        ∧ Get id false s' = (None, s')
        ∧ ∀ dt, Get id false (tick dt s') = (None, tick dt s').
Proof.
  intros Hlive. eexists. split; [by apply Get_live_clear|]. simpl.
  split_and!.
  - apply lookup_delete_eq.
  - intros id' Hne. by rewrite lookup_delete_ne.
  - unfold memoryStore_Get. simpl. by rewrite lookup_delete_eq.
  - intros dt. unfold memoryStore_Get. simpl. by rewrite lookup_delete_eq.
Qed.

(** C5.  [NewLen(L)] stores, under the id it returns, a solution of exactly
    [L] elements, each in [0,36).  ([L] is a length, so not negative; the
    store's time-to-live is not negative, so that the new entry is live.) *)
Theorem NewLen_solution (L : Z) w :
  0 <= L → 0 <= expiration (globalStore w) →
  ∃ solution,
    live (globalStore (NewLen randomId L w).2) (NewLen randomId L w).1 solution
    ∧ Z.of_nat (length solution) = L
    ∧ Forall (λ d, 0 <= d < 36) solution.
Proof.
  intros HL Httl. unfold NewLen.
  destruct (randomId (entropy w)) as [id g1].
  destruct (randomBytesMod_spec L 36 g1) as [Hlen Hrange]; [done|].
  destruct (randomBytesMod L 36 g1) as [digits g2]. simpl in *.
  exists digits. split_and!; [|lia|done].
  by apply Set_live.
Qed.

(** C6.  [Reload(id)] returns false, and changes nothing, when [id] has no
    live entry.  Otherwise it returns true having put under the same [id]
    a solution drawn afresh from the generator, as long as the old one,
    with the expiry set anew to the current time plus the time-to-live; no
    entry appears under any other id. *)
Theorem Reload_same_length id w :
  (¬ is_live (globalStore w) id → Reload id w = (false, w))
  ∧ (∀ old, live (globalStore w) id old →
       let fresh := RandomDigits (Z.of_nat (length old)) (entropy w) in
       Reload id w =
         (true, World (Set_ id fresh.1 (globalStore w)) fresh.2 (stdout w))
       ∧ length fresh.1 = length old
       ∧ dom (entries (globalStore (Reload id w).2))
           ⊆ dom (entries (globalStore w))
       ∧ (0 <= expiration (globalStore w) →
          entries (globalStore (Reload id w).2) !! id =
            Some (fresh.1,
                  clock (globalStore w) + expiration (globalStore w)))).
Proof.
  split.
  - intros Hn. unfold Reload. rewrite Get_not_live by done. by destruct w.
  - intros old Hlive fresh.
    assert (Heq : Reload id w =
      (true, World (Set_ id fresh.1 (globalStore w)) fresh.2 (stdout w))).
    { unfold Reload. rewrite (Get_live_keep _ _ _ Hlive).
      subst fresh. by destruct (RandomDigits _ _). }
    assert (Hlen : length fresh.1 = length old).
    { destruct (randomBytesMod_spec (Z.of_nat (length old)) 36 (entropy w))
        as [Hlen _]; [done|].
      subst fresh. unfold RandomDigits. rewrite Hlen. lia. }
    rewrite Heq. clearbody fresh. simpl. split_and!; [done|done| |].
    + etrans; [apply Set_dom|].
      destruct Hlive as (e & He & _).
      apply union_least; [|done].
      apply singleton_subseteq_l, elem_of_dom. by eexists.
    + intros Httl. by apply Set_lookup.
Qed.

(** C7.  [WriteImage] reads the solution with a [Get] that does not
    consume.  Without a live entry for [id] it returns [ErrNotFound],
    writes nothing and changes nothing.  With one it writes the image of
    the current solution and leaves the store exactly as it was, whatever
    the writer answers, so the entry is still live for the next fetch. *)
Theorem WriteImage_not_consuming {W : Type} `{!Writer W} (out : W)
    id (width height : Z) w :
  (¬ is_live (globalStore w) id →
     WriteImage NewImage encodedPNG out id width height w
       = (Some ErrNotFound, out, w))
  ∧ (∀ d, live (globalStore w) id d →
       let m := NewImage id d width height (entropy w) in
       let r := WriteTo encodedPNG m.1 out in
       WriteImage NewImage encodedPNG out id width height w
         = (r.1.2, r.2, World (globalStore w) m.2 (stdout w))
       ∧ live (globalStore
                 (WriteImage NewImage encodedPNG out id width height w).2)
              id d).
Proof.
  split.
  - intros Hn. unfold WriteImage. rewrite Get_not_live by done. by destruct w.
  - intros d Hlive m r.
    assert (Heq : WriteImage NewImage encodedPNG out id width height w
         = (r.1.2, r.2, World (globalStore w) m.2 (stdout w))).
    { unfold WriteImage. rewrite (Get_live_keep _ _ _ Hlive).
      subst r m. destruct (NewImage _ _ _ _ _) as [m g]. simpl.
      by destruct (WriteTo encodedPNG m out) as [[n err] out']. }
    by rewrite Heq.
Qed.

End DefaultStore.

(** ** Single use *)

Section SingleUse.
Context {Image : Type}.
Variable randomId : RNG → string * RNG.
Variable NewImage : string → list byte → Z → Z → RNG → Image * RNG.
Variable encodedPNG : Image → list byte.
Implicit Types (id : string) (w : world memoryStore).

Lemma absent_not_live (s : memoryStore) id :
  entries s !! id = None → ¬ is_live s id.
Proof. intros Hid (sol & e & He & _). congruence. Qed.

Lemma Verify_absent id digits w :
  entries (globalStore w) !! id = None →
  (Verify id digits w).1 = false
  ∧ entries (globalStore (Verify id digits w).2) !! id = None.
Proof.
  intros Hid. unfold Verify. destruct (length digits =? 0)%nat; [done|].
  rewrite Get_not_live by by apply absent_not_live. done.
Qed.

Lemma Verify_keeps_absent id id' digits w :
  entries (globalStore w) !! id = None →
  entries (globalStore (Verify id' digits w).2) !! id = None.
Proof.
  intros Hid. unfold Verify. destruct (length digits =? 0)%nat; [done|].
  pose proof (Get_absent (globalStore w) id id' true Hid) as Hget.
  by destruct (Get id' true (globalStore w)) as [[reald|] st].
Qed.

(** No event of a history brings back an entry for [id]. *)
Lemma step_keeps_absent id w w' :
  step randomId NewImage encodedPNG id w w' →
  entries (globalStore w) !! id = None →
  entries (globalStore w') !! id = None.
Proof.
  intros Hstep Hid. destruct Hstep as [dt|len Hne|id'|W wr out id' wd ht|id' digits|id' answer].
  - done.
  - unfold NewLen in *. destruct (randomId (entropy w)) as [id' g1].
    destruct (randomBytesMod len 36 g1) as [digits g2]. simpl in *.
    by apply Set_absent.
  - unfold Reload.
    pose proof (Get_absent (globalStore w) id id' false Hid) as Hget.
    pose proof (Get_Some (globalStore w) id' false) as Hsome.
    destruct (Get id' false (globalStore w)) as [[old|] st]; [|done].
    destruct (RandomDigits _ _) as [digits g]. simpl in *.
    apply Set_absent; [|done].
    intros ->. destruct (Hsome old eq_refl) as (e & He & _). congruence.
  - unfold WriteImage.
    pose proof (Get_absent (globalStore w) id id' false Hid) as Hget.
    destruct (Get id' false (globalStore w)) as [[d|] st]; [|done].
    destruct (NewImage _ _ _ _ _) as [m g].
    by destruct (WriteTo encodedPNG m out) as [[n err] out'].
  - by apply Verify_keeps_absent.
  - unfold VerifyString. destruct (toIndices _ _); [|done].
    by apply Verify_keeps_absent.
Qed.

Lemma history_keeps_absent id w w' :
  rtc (step randomId NewImage encodedPNG id) w w' →
  entries (globalStore w) !! id = None →
  entries (globalStore w') !! id = None.
Proof.
  induction 1 as [|w1 w2 w3 Hstep _ IH]; [done|].
  intros Hid. apply IH. by eapply step_keeps_absent.
Qed.

(** C1.  [Verify] on a live challenge with an attempt that is not empty
    answers whether the attempt is the solution and, right or wrong,
    removes the challenge.  From then on, whatever happens in between
    (time passing, other calls of the package, as long as no new challenge
    is issued under the same id), every [Verify] on that id returns false,
    also one whose attempt is the original solution. *)
Theorem Verify_consumes id digits solution w :
  digits ≠ [] →
  live (globalStore w) id solution →
  (Verify id digits w).1 = bool_decide (digits = solution)
  ∧ entries (globalStore (Verify id digits w).2) !! id = None
  ∧ ∀ w', rtc (step randomId NewImage encodedPNG id) (Verify id digits w).2 w' →
      (Verify id solution w').1 = false
      ∧ ∀ attempt, (Verify id attempt w').1 = false.
Proof.
  intros Hne Hlive.
  assert (Hgone : entries (globalStore (Verify id digits w).2) !! id = None).
  { rewrite Verify_unfold by done. rewrite (Get_live_clear _ _ _ Hlive). simpl.
    apply lookup_delete_eq. }
  split_and!.
  - rewrite Verify_unfold by done. by rewrite (Get_live_clear _ _ _ Hlive).
  - done.
  - intros w' Hhist.
    pose proof (history_keeps_absent _ _ _ Hhist Hgone) as Hid.
    split; [|intros attempt]; by apply Verify_absent.
Qed.

End SingleUse.

(** ** Examples *)

Example go_path_examples :
  go_path_Split "/captcha/download/LBm5.png" = ("/captcha/download/", "LBm5.png")
  ∧ go_path_Ext "LBm5.png" = ".png"
  ∧ go_path_Ext "LBm5" = ""
  ∧ go_path_Base "/captcha/download/" = "download"
  ∧ go_path_Base "/captcha/" = "captcha".
Proof. by vm_compute. Qed.

Example sampleStore_live : live sampleStore "LBm5" [5; 6; 7; 8].
Proof. exists (1000 + Expiration). by vm_compute. Qed.

(** A text of ASCII bytes is its own sequence of runes. *)
Lemma decode_ascii (s : list byte) : Forall (λ b, b < 0x80) s → decode s = s.
Proof.
  induction 1 as [|b s Hb _ IH]; [done|]. simpl.
  rewrite (proj2 (Z.ltb_lt _ _)) by done. by rewrite IH.
Qed.

(** The scenario of the specification: a wrong attempt returns false, and
    so does the right one after it. *)
Example wrong_then_right :
  (Verify "LBm5" [1; 2; 3; 4] sampleWorld).1 = false
  ∧ (Verify "LBm5" [5; 6; 7; 8]
            (Verify "LBm5" [1; 2; 3; 4] sampleWorld).2).1 = false
  ∧ (Verify "LBm5" [5; 6; 7; 8] sampleWorld).1 = true
  ∧ (VerifyString "LBm5" "5678"
                  (VerifyString "LBm5" "5678" sampleWorld).2).1 = false.
Proof. by vm_compute. Qed.

(** Letters count in either case. *)
Example letters_either_case :
  let w := World (memoryStore_Set "k" [10; 35; 9] sampleStore)
                 (entropy sampleWorld) [] in
  (VerifyString "k" "aZ9" w).1 = true ∧ (VerifyString "k" "Az9" w).1 = true.
Proof. by vm_compute. Qed.

(** On a store that records its calls: a text with a foreign character
    reaches the store with no call, a well-formed wrong text with one
    consuming [Get]. *)
Example recorded_calls :
  let w := World (sampleStore, []) (entropy sampleWorld) [] in
  (globalStore (VerifyString "LBm5" "56-8" w).2).2 = []
  ∧ (globalStore (VerifyString "LBm5" "" w).2).2 = []
  ∧ (globalStore (VerifyString "LBm5" "1234" w).2).2 = [GetCall "LBm5" true].
Proof. by vm_compute. Qed.

(** The handler on a ".png" path and on another extension. *)
Example ServeHTTP_examples :
  let run p :=
    (ServeHTTP sample_NewImage id sample_NotFound sample_ServeContent
               go_path_Split go_path_Ext go_path_Base
               {| imgWidth := 240; imgHeight := 80 |}
               emptyResponse (sampleRequest p) sampleWorld).1 in
  sent (run "/captcha/LBm5.png") = [5; 6; 7; 8]
  ∧ header (run "/captcha/LBm5.png") !! "Content-Type" = Some ["image/png"]
  ∧ header (run "/captcha/download/LBm5.png") !! "Content-Type"
      = Some ["application/octet-stream"]
  ∧ sent (run "/captcha/LBm5.gif") = bytes_of_string "404 page not found"
  ∧ sent (run "/captcha/nope.png") = bytes_of_string "404 page not found".
Proof. by vm_compute. Qed.

(** ** Instances of the theorems on the sample data *)

Lemma Verify_consumes_witness :
  [1; 2; 3; 4] ≠ ([] : list Z)
  ∧ live (globalStore sampleWorld) "LBm5" [5; 6; 7; 8]
  ∧ (Verify "LBm5" [1; 2; 3; 4] sampleWorld).1 = false
  ∧ (Verify "LBm5" [5; 6; 7; 8]
            (Verify "LBm5" [1; 2; 3; 4] sampleWorld).2).1 = false.
Proof.
  assert (H1 : [1; 2; 3; 4] ≠ ([] : list Z)) by discriminate.
  assert (H2 : live (globalStore sampleWorld) "LBm5" [5; 6; 7; 8]).
  { exists (1000 + Expiration). split; [reflexivity|]. vm_compute. discriminate. }
  destruct (Verify_consumes sample_randomId sample_NewImage id
              "LBm5" [1; 2; 3; 4] [5; 6; 7; 8] sampleWorld H1 H2)
    as (Hfirst & _ & Hafter).
  split; [exact H1|]. split; [exact H2|]. split.
  - rewrite Hfirst. reflexivity.
  - exact (proj1 (Hafter _ (rtc_refl _ _))).
Defined.

Lemma VerifyString_invalid_char_rejected_witness :
  (∃ c, c ∈ runes "56-8" ∧ ¬ alnum c)
  ∧ VerifyString "LBm5" "56-8" sampleWorld = (false, sampleWorld).
Proof.
  assert (H : ∃ c, c ∈ runes "56-8" ∧ ¬ alnum c).
  { exists 45. split.
    - apply list_elem_of_In. vm_compute. tauto.
    - unfold alnum. lia. }
  split; [exact H|].
  exact (VerifyString_invalid_char_rejected "LBm5" "56-8" sampleWorld H).
Defined.

Lemma Get_consume_exactly_once_witness :
  live sampleStore "LBm5" [5; 6; 7; 8]
  ∧ ∃ s', Get "LBm5" true sampleStore = (Some [5; 6; 7; 8], s')
          ∧ Get "LBm5" false s' = (None, s').
Proof.
  assert (H : live sampleStore "LBm5" [5; 6; 7; 8]).
  { exists (1000 + Expiration). split; [reflexivity|]. vm_compute. discriminate. }
  split; [exact H|].
  destruct (Get_consume_exactly_once sampleStore "LBm5" [5; 6; 7; 8] H)
    as (s' & Hget & _ & _ & Hagain & _).
  exists s'. split; [exact Hget | exact Hagain].
Defined.

Lemma NewLen_solution_witness :
  0 <= 4
  ∧ 0 <= expiration (globalStore sampleWorld)
  ∧ ∃ solution,
      live (globalStore (NewLen sample_randomId 4 sampleWorld).2)
           (NewLen sample_randomId 4 sampleWorld).1 solution
      ∧ Z.of_nat (length solution) = 4
      ∧ Forall (λ d, 0 <= d < 36) solution.
Proof.
  assert (H1 : 0 <= 4) by lia.
  assert (H2 : 0 <= expiration (globalStore sampleWorld))
    by (vm_compute; discriminate).
  split; [exact H1|]. split; [exact H2|].
  exact (NewLen_solution sample_randomId 4 sampleWorld H1 H2).
Defined.

Lemma Reload_same_length_witness :
  ¬ is_live (globalStore sampleWorld) "nope"
  ∧ live (globalStore sampleWorld) "LBm5" [5; 6; 7; 8]
  ∧ 0 <= expiration (globalStore sampleWorld)
  ∧ Reload "nope" sampleWorld = (false, sampleWorld)
  ∧ (Reload "LBm5" sampleWorld).1 = true
  ∧ entries (globalStore (Reload "LBm5" sampleWorld).2) !! "LBm5"
      = Some ([3; 10; 17; 24], 1000 + Expiration).
Proof.
  assert (H1 : ¬ is_live (globalStore sampleWorld) "nope").
  { intros (sol & e & He & _). vm_compute in He. discriminate. }
  assert (H2 : live (globalStore sampleWorld) "LBm5" [5; 6; 7; 8]).
  { exists (1000 + Expiration). split; [reflexivity|]. vm_compute. discriminate. }
  assert (H3 : 0 <= expiration (globalStore sampleWorld))
    by (vm_compute; discriminate).
  split; [exact H1|]. split; [exact H2|]. split; [exact H3|].
  split; [exact (proj1 (Reload_same_length "nope" sampleWorld) H1)|].
  destruct (proj2 (Reload_same_length "LBm5" sampleWorld) _ H2)
    as (Heq & _ & _ & Hentry).
  split.
  - rewrite Heq. reflexivity.
  - rewrite (Hentry H3). reflexivity.
Defined.

Lemma WriteImage_not_consuming_witness :
  ¬ is_live (globalStore sampleWorld) "nope"
  ∧ live (globalStore sampleWorld) "LBm5" [5; 6; 7; 8]
  ∧ WriteImage sample_NewImage id ([] : list Z) "nope" 240 80 sampleWorld
      = (Some ErrNotFound, [], sampleWorld)
  ∧ WriteImage sample_NewImage id ([] : list Z) "LBm5" 240 80 sampleWorld
      = (None, [5; 6; 7; 8], sampleWorld)
  ∧ live (globalStore
            (WriteImage sample_NewImage id ([] : list Z) "LBm5" 240 80
                        sampleWorld).2)
         "LBm5" [5; 6; 7; 8].
Proof.
  assert (H1 : ¬ is_live (globalStore sampleWorld) "nope").
  { intros (sol & e & He & _). vm_compute in He. discriminate. }
  assert (H2 : live (globalStore sampleWorld) "LBm5" [5; 6; 7; 8]).
  { exists (1000 + Expiration). split; [reflexivity|]. vm_compute. discriminate. }
  split; [exact H1|]. split; [exact H2|].
  split;
    [exact (proj1 (WriteImage_not_consuming sample_NewImage id
                     ([] : list Z) "nope" 240 80 sampleWorld) H1)|].
  destruct (proj2 (WriteImage_not_consuming sample_NewImage id
                     ([] : list Z) "LBm5" 240 80 sampleWorld) _ H2)
    as (Heq & Hlive).
  split; [exact Heq | exact Hlive].
Defined.

Lemma VerifyString_alphabet_rule_witness :
  48 <= 53 <= 57 ∧ 65 <= 90 <= 90 ∧ ¬ alnum 45
  ∧ classIndex 53 = Some 5
  ∧ classIndex 90 = Some 35 ∧ classIndex 122 = Some 35
  ∧ classIndex 45 = None
  ∧ (VerifyString "LBm5" "5678" sampleWorld).1 = true.
Proof.
  assert (H1 : 48 <= 53 <= 57) by lia.
  assert (H2 : 65 <= 90 <= 90) by lia.
  assert (H3 : ¬ alnum 45) by (unfold alnum; lia).
  destruct (VerifyString_alphabet_rule "LBm5" "5678" sampleWorld)
    as (Hd & Hl & Hn & _ & Hiff).
  split; [exact H1|]. split; [exact H2|]. split; [exact H3|].
  split; [exact (Hd 53 H1)|].
  split; [exact (proj1 (Hl 90 H2))|].
  split; [exact (proj2 (Hl 90 H2))|].
  split; [exact (Hn 45 H3)|].
  apply Hiff. exists [5; 6; 7; 8].
  split; [reflexivity|]. split; [discriminate | reflexivity].
Defined.

Lemma VerifyString_is_Verify_witness :
  Forall alnum (runes "aZ9")
  ∧ ∃ s, mapM classIndex (runes "aZ9") = Some s
         ∧ VerifyString "LBm5" "aZ9" sampleWorld = Verify "LBm5" s sampleWorld.
Proof.
  assert (H : Forall alnum (runes "aZ9")).
  { apply (bool_decide_unpack _). vm_compute. exact I. }
  split; [exact H|].
  exact (VerifyString_is_Verify "LBm5" "aZ9" sampleWorld H).
Defined.

Lemma serve_only_png_witness :
  ".gif" ≠ ".png"
  ∧ go_path_Ext (go_path_Split "/captcha/LBm5.gif").2 ≠ ".png"
  ∧ (serve sample_NewImage id sample_ServeContent
           {| imgWidth := 240; imgHeight := 80 |} emptyResponse
           (sampleRequest "/captcha/LBm5.gif") "LBm5" ".gif" false
           sampleWorld).1.1 = Some ErrNotFound
  ∧ ∃ rw',
      (ServeHTTP sample_NewImage id sample_NotFound sample_ServeContent
                 go_path_Split go_path_Ext go_path_Base
                 {| imgWidth := 240; imgHeight := 80 |} emptyResponse
                 (sampleRequest "/captcha/LBm5.gif") sampleWorld).1
        = sample_NotFound rw' (sampleRequest "/captcha/LBm5.gif")
      ∧ sent rw' = sent emptyResponse.
Proof.
  assert (H1 : ".gif" ≠ ".png") by discriminate.
  assert (H2 : go_path_Ext (go_path_Split "/captcha/LBm5.gif").2 ≠ ".png")
    by (vm_compute; discriminate).
  destruct (serve_only_png sample_NewImage id sample_NotFound
              sample_ServeContent go_path_Split go_path_Ext go_path_Base
              {| imgWidth := 240; imgHeight := 80 |} emptyResponse
              (sampleRequest "/captcha/LBm5.gif") sampleWorld)
    as (Hserve & Hhttp).
  split; [exact H1|]. split; [exact H2|]. split.
  - rewrite (Hserve "LBm5" ".gif" false H1). reflexivity.
  - exact (Hhttp H2).
Defined.

(** * Further properties *)

(** ** Strings and the display of a solution *)

Lemma bytes_of_string_app (a b : string) :
  bytes_of_string (a +:+ b) = bytes_of_string a ++ bytes_of_string b.
Proof.
  unfold bytes_of_string. rewrite <- fmap_app. f_equal.
  induction a as [|c a IH]; [done|]. simpl. by rewrite IH.
Qed.

Lemma bytes_of_string_of_bytes (l : list byte) :
  Forall (λ b, 0 <= b < 256) l → bytes_of_string (string_of_bytes l) = l.
Proof.
  unfold bytes_of_string, string_of_bytes.
  rewrite String.list_ascii_of_string_of_list_ascii.
  induction 1 as [|b l Hb _ IH]; [done|]. rewrite !fmap_cons, IH. f_equal.
  rewrite Ascii.N_ascii_embedding by lia. lia.
Qed.

(** The character shown for a class index. *)
Lemma solutionStr_bytes (solution : list byte) (str : string) :
  Forall (λ d, 0 <= d < 36) solution →
  bytes_of_string
    (fold_left
       (λ str b,
          if b <? 10 then str +:+ string_of_rune (byte_of (48 + b))
          else str +:+ string_of_rune (byte_of (byte_of (65 + b) - 10)))
       solution str)
  = bytes_of_string str ++ ((λ b, if b <? 10 then 48 + b else 55 + b) <$> solution).
Proof.
  intros Hall. revert str.
  induction Hall as [|b l Hb _ IH]; intros str; simpl.
  { by rewrite app_nil_r. }
  rewrite IH.
  assert (Hchar : ∀ x, 0 <= x < 0x80 → bytes_of_string (string_of_rune x) = [x]).
  { intros x Hx. unfold string_of_rune, encodeRune.
    rewrite (proj2 (andb_true_iff _ _)) by (rewrite Z.leb_le, Z.ltb_lt; lia).
    apply bytes_of_string_of_bytes. apply Forall_singleton. lia. }
  destruct (Z.ltb_spec b 10).
  - rewrite bytes_of_string_app, byte_of_small by lia.
    rewrite Hchar by lia. by rewrite <- app_assoc.
  - rewrite bytes_of_string_app.
    rewrite (byte_of_small (65 + b)) by lia.
    rewrite byte_of_small by lia. rewrite Hchar by lia.
    rewrite <- app_assoc. simpl. do 3 f_equal. lia.
Qed.

Lemma runes_solutionStr (solution : list byte) :
  Forall (λ d, 0 <= d < 36) solution →
  runes (solutionStr solution)
  = (λ b, if b <? 10 then 48 + b else 55 + b) <$> solution.
Proof.
  intros Hall. unfold runes, solutionStr.
  rewrite solutionStr_bytes by done. simpl.
  apply decode_ascii, Forall_fmap. eapply Forall_impl; [done|].
  intros b Hb. simpl in *. case_match; lia.
Qed.

Lemma classIndex_shown (b : byte) :
  0 <= b < 36 → classIndex (if b <? 10 then 48 + b else 55 + b) = Some b.
Proof.
  intros Hb. rewrite classIndex_closed.
  destruct (Z.ltb_spec b 10).
  - rewrite (proj2 (andb_true_iff _ _)) by (rewrite !Z.leb_le; lia).
    f_equal. lia.
  - rewrite (proj2 (andb_false_iff _ _)) by (rewrite !Z.leb_gt; lia).
    rewrite (proj2 (andb_true_iff _ _)) by (rewrite !Z.leb_le; lia).
    f_equal. lia.
Qed.

Lemma toIndices_solutionStr (solution : list byte) :
  Forall (λ d, 0 <= d < 36) solution →
  toIndices (runes (solutionStr solution)) [] = Some solution.
Proof.
  intros Hall. rewrite runes_solutionStr, toIndices_mapM by done.
  assert (Hm : mapM classIndex
                 ((λ b, if b <? 10 then 48 + b else 55 + b) <$> solution)
               = Some solution); [|by rewrite Hm].
  apply mapM_Some_2, Forall2_fmap_l, Forall_Forall2_diag.
  eapply Forall_impl; [done|]. intros b Hb. by apply classIndex_shown.
Qed.

Lemma classIndex_upper (a b : rune) :
  upper a = upper b → classIndex a = classIndex b.
Proof. unfold classIndex. by intros ->. Qed.

Lemma shown_classIndex (c : rune) (i : byte) :
  classIndex c = Some i → (if i <? 10 then 48 + i else 55 + i) = upper c.
Proof.
  rewrite classIndex_closed. unfold upper.
  destruct ((48 <=? c) && (c <=? 57)) eqn:Hd.
  { apply andb_true_iff in Hd as [?%Z.leb_le ?%Z.leb_le]. intros [= <-].
    rewrite (proj2 (Z.ltb_lt _ _)) by lia.
    rewrite (proj2 (andb_false_iff _ _)) by (rewrite !Z.leb_gt; lia). lia. }
  destruct ((65 <=? c) && (c <=? 90)) eqn:Hu.
  { apply andb_true_iff in Hu as [?%Z.leb_le ?%Z.leb_le]. intros [= <-].
    rewrite (proj2 (Z.ltb_ge _ _)) by lia.
    rewrite (proj2 (andb_false_iff _ _)) by (rewrite !Z.leb_gt; lia). lia. }
  destruct ((97 <=? c) && (c <=? 122)) eqn:Hl; [|done].
  apply andb_true_iff in Hl as [?%Z.leb_le ?%Z.leb_le]. intros [= <-].
  rewrite (proj2 (Z.ltb_ge _ _)) by lia. lia.
Qed.

(** ** [VerifyString] and the display of a solution *)

Section AnswerText.
Context {S : Type} `{!Store S}.
Implicit Types (id : string) (w : world S).

(** X1.  [VerifyString] does not tell the case of letters: two texts whose
    characters are the same up to the case of the letters a-z get the same
    answer and leave the same package state, with any store. *)
Theorem VerifyString_ignores_case id (text1 text2 : string) w :
  Forall2 (λ a b, upper a = upper b) (runes text1) (runes text2) →
  VerifyString id text1 w = VerifyString id text2 w.
Proof.
  intros Hcase. unfold VerifyString. rewrite !toIndices_mapM.
  assert (Hm : mapM classIndex (runes text1) = mapM classIndex (runes text2));
    [|by rewrite Hm].
  induction Hcase as [|a b l1 l2 Hab _ IH]; [done|].
  simpl. by rewrite (classIndex_upper a b Hab), IH.
Qed.

(** X2.  The text the example program shows for a solution ('0'-'9' for
    the classes below 10, 'A'-'Z' for the others) is read back by
    [VerifyString] as that solution: verifying the shown text is verifying
    the solution itself. *)
Theorem VerifyString_solutionStr id (solution : list byte) w :
  Forall (λ d, 0 <= d < 36) solution →
  VerifyString id (solutionStr solution) w = Verify id solution w.
Proof.
  intros Hall. unfold VerifyString. by rewrite toIndices_solutionStr.
Qed.

End AnswerText.

(** X3.  In the other direction: when the loop of [VerifyString] accepts a
    text, the indices it computes are classes in [0,36), and showing them
    gives the characters of the text with its letters in upper case. *)
Theorem solutionStr_of_answer (text : string) (ns : list byte) :
  toIndices (runes text) [] = Some ns →
  Forall (λ d, 0 <= d < 36) ns
  ∧ runes (solutionStr ns) = upper <$> runes text.
Proof.
  rewrite toIndices_mapM. intros Hm.
  assert (Hns : mapM classIndex (runes text) = Some ns).
  { destruct (mapM classIndex (runes text)); simpl in Hm; congruence. }
  apply mapM_Some_1 in Hns.
  assert (Hrange : Forall (λ d, 0 <= d < 36) ns).
  { apply Forall_forall. intros d Hd.
    destruct (proj1 (list_elem_of_lookup _ _) Hd) as [i Hi].
    destruct (Forall2_lookup_r _ _ _ _ _ Hns Hi) as (c & _ & Hc).
    by eapply classIndex_range. }
  split; [done|]. rewrite runes_solutionStr by done.
  clear Hm Hrange. induction Hns as [|c d l k Hcd _ IH]; [done|].
  rewrite !fmap_cons, IH. f_equal. by apply shown_classIndex.
Qed.

(** ** More on the default store *)

Section MemoryStoreFrame.
Implicit Types (s : memoryStore) (id : string).

(** A lookup leaves what it does not remove. *)
Lemma Get_entry s id id' clear x :
  entries (Get id' clear s).2 !! id = Some x → entries s !! id = Some x.
Proof.
  simpl. unfold memoryStore_Get.
  destruct (entries s !! id') as [[sol e]|]; [|done].
  destruct (clock s <=? e); [|done].
  destruct clear; [|done]. simpl.
  intros Hx. by apply lookup_delete_Some in Hx as [_ ?].
Qed.

Lemma Get_clock s id clear : clock (Get id clear s).2 = clock s.
Proof.
  simpl. unfold memoryStore_Get.
  destruct (entries s !! id) as [[sol e]|]; [|done].
  destruct (clock s <=? e); [|done]. by destruct clear.
Qed.

(** What [Set] leaves under another id was there before. *)
Lemma Set_entry_other s id id' digits x :
  id' ≠ id → entries (Set_ id' digits s) !! id = Some x →
  entries s !! id = Some x.
Proof.
  intros Hne. simpl. unfold memoryStore_Set. simpl.
  case_match; simpl.
  - intros [Hx _]%map_lookup_filter_Some. by rewrite lookup_insert_ne in Hx.
  - by rewrite lookup_insert_ne.
Qed.

(** What [Set] leaves under its own id is what it was given. *)
Lemma Set_entry_same s id digits solution e :
  entries (Set_ id digits s) !! id = Some (solution, e) → solution = digits.
Proof.
  simpl. unfold memoryStore_Set. simpl.
  case_match; simpl.
  - intros [Hx _]%map_lookup_filter_Some. rewrite lookup_insert_eq in Hx.
    congruence.
  - rewrite lookup_insert_eq. congruence.
Qed.

Lemma Set_clock s id digits : clock (Set_ id digits s) = clock s.
Proof. simpl. unfold memoryStore_Set. simpl. by case_match. Qed.

(** [Set] keeps the live entries of the other ids, sweep or no sweep. *)
Lemma Set_keeps_live s id id' digits solution :
  id' ≠ id → live s id solution → live (Set_ id' digits s) id solution.
Proof.
  intros Hne (e & He & Hle). exists e. rewrite Set_clock. split; [|done].
  simpl. unfold memoryStore_Set. simpl.
  case_match; simpl.
  - apply map_lookup_filter_Some. by rewrite lookup_insert_ne.
  - by rewrite lookup_insert_ne.
Qed.

End MemoryStoreFrame.

(** ** Life of a challenge over the default store *)

Section Life.
Context {Image : Type}.
Variable randomId : RNG → string * RNG.
Variable NewImage : string → list byte → Z → Z → RNG → Image * RNG.
Variable encodedPNG : Image → list byte.
Implicit Types (id : string) (w : world memoryStore).

Lemma Verify_keeps_entry id id' digits w x :
  entries (globalStore (Verify id' digits w).2) !! id = Some x →
  entries (globalStore w) !! id = Some x.
Proof.
  unfold Verify. destruct (length digits =? 0)%nat; [done|].
  pose proof (Get_entry (globalStore w) id id' true x) as Hget.
  by destruct (Get id' true (globalStore w)) as [[reald|] st].
Qed.

Lemma step_keeps_sized id n w w' :
  step randomId NewImage encodedPNG id w w' → sized id n w → sized id n w'.
Proof.
  intros Hstep Hn sol e.
  destruct Hstep as [dt|len Hne|id'|W wr out id' wd ht|id' digits|id' answer].
  - apply Hn.
  - unfold NewLen in *. destruct (randomId (entropy w)) as [id' g1].
    destruct (randomBytesMod len 36 g1) as [digits g2]. simpl in *.
    intros Hx%Set_entry_other; [by eapply Hn | done].
  - unfold Reload.
    pose proof (Get_entry (globalStore w) id id' false) as Hget.
    pose proof (Get_Some (globalStore w) id' false) as Hsome.
    destruct (Get id' false (globalStore w)) as [[old|] st];
      [|intros Hx%Hget; by eapply Hn].
    pose proof (randomBytesMod_spec (Z.of_nat (length old)) 36 (entropy w))
      as Hfresh.
    unfold RandomDigits.
    destruct (randomBytesMod _ _ _) as [digits g]. simpl in *.
    destruct (decide (id' = id)) as [->|Hne].
    + intros ->%Set_entry_same.
      destruct (Hsome old eq_refl) as (e0 & He0 & _).
      destruct Hfresh as [-> _]; [done|]. rewrite Nat2Z.id. by eapply Hn.
    + intros Hx%Set_entry_other; [|done]. apply Hget in Hx. by eapply Hn.
  - unfold WriteImage.
    pose proof (Get_entry (globalStore w) id id' false) as Hget.
    destruct (Get id' false (globalStore w)) as [[d|] st].
    + destruct (NewImage _ _ _ _ _) as [m g].
      destruct (WriteTo encodedPNG m out) as [[k err] out']. simpl.
      intros Hx%Hget. by eapply Hn.
    + simpl. intros Hx%Hget. by eapply Hn.
  - intros Hx%Verify_keeps_entry. by eapply Hn.
  - unfold VerifyString. destruct (toIndices _ _); [|by apply Hn].
    intros Hx%Verify_keeps_entry. by eapply Hn.
Qed.

Lemma history_keeps_sized id n w w' :
  rtc (step randomId NewImage encodedPNG id) w w' →
  sized id n w → sized id n w'.
Proof.
  induction 1 as [|w1 w2 w3 Hstep _ IH]; [done|].
  intros Hn. apply IH. by eapply step_keeps_sized.
Qed.

(** X4.  The length of a challenge's solution is fixed: through any
    history in which the id is not issued again (time passing, reloads,
    image fetches, verifications of this or other ids), a solution found
    live under [id] is as long as the one that was live there at the
    start. *)
Theorem solution_length_fixed id w w' (solution solution' : list byte) :
  rtc (step randomId NewImage encodedPNG id) w w' →
  live (globalStore w) id solution →
  live (globalStore w') id solution' →
  length solution' = length solution.
Proof.
  intros Hhist (e & He & _) (e' & He' & _).
  eapply (history_keeps_sized id (length solution)); [done| |done].
  intros sol e0 Hsol. congruence.
Qed.

(** X5.  A challenge created with length 0 can never be verified: in any
    history after [NewLen(0)] in which its id is not issued again, [Verify]
    and [VerifyString] on that id return false for every attempt. *)
Theorem zero_length_never_verified w w' :
  rtc (step randomId NewImage encodedPNG (NewLen randomId 0 w).1)
      (NewLen randomId 0 w).2 w' →
  (∀ attempt, (Verify (NewLen randomId 0 w).1 attempt w').1 = false)
  ∧ (∀ text, (VerifyString (NewLen randomId 0 w).1 text w').1 = false).
Proof.
  intros Hhist.
  assert (Hsized : sized (NewLen randomId 0 w).1 0 w').
  { eapply history_keeps_sized; [done|].
    unfold NewLen. destruct (randomId (entropy w)) as [id g1].
    destruct (randomBytesMod_spec 0 36 g1) as [Hlen _]; [done|].
    destruct (randomBytesMod 0 36 g1) as [digits g2]. simpl in *.
    intros sol e ->%Set_entry_same. done. }
  set (id := (NewLen randomId 0 w).1) in *. clearbody id.
  assert (Hverify : ∀ attempt, (Verify id attempt w').1 = false).
  { intros attempt. destruct (decide (attempt = [])) as [->|Hne]; [done|].
    rewrite Verify_unfold by done.
    pose proof (Get_Some (globalStore w') id true) as Hsome.
    destruct (Get id true (globalStore w')).1 as [reald|]; [|done]. simpl.
    destruct (Hsome reald eq_refl) as (e & He & _).
    apply Hsized in He. apply nil_length_inv in He as ->.
    by apply bool_decide_eq_false. }
  split; [done|]. intros text. unfold VerifyString.
  destruct (toIndices _ _); [apply Hverify | done].
Qed.

(** X6.  A challenge just created with a positive length is verified by
    its solution, given as indices to [Verify] or as the shown text to
    [VerifyString] (the store's time-to-live not being negative). *)
Theorem NewLen_then_Verify (L : Z) w :
  0 < L → 0 <= expiration (globalStore w) →
  ∃ solution,
    live (globalStore (NewLen randomId L w).2) (NewLen randomId L w).1 solution
    ∧ (Verify (NewLen randomId L w).1 solution (NewLen randomId L w).2).1
        = true
    ∧ (VerifyString (NewLen randomId L w).1 (solutionStr solution)
                    (NewLen randomId L w).2).1 = true.
Proof.
  intros HL Httl. unfold NewLen.
  destruct (randomId (entropy w)) as [id g1].
  destruct (randomBytesMod_spec L 36 g1) as [Hlen Hrange]; [done|].
  destruct (randomBytesMod L 36 g1) as [digits g2]. simpl in *.
  pose proof (Set_live (globalStore w) id digits Httl) as Hlive.
  assert (Hne : digits ≠ []).
  { intros ->. simpl in Hlen. lia. }
  assert (Hv : ∀ w1, globalStore w1 = Set_ id digits (globalStore w) →
                     (Verify id digits w1).1 = true).
  { intros w1 Hw1. rewrite Verify_unfold by done.
    rewrite Hw1, (Get_live_clear _ _ _ Hlive). simpl.
    by apply bool_decide_eq_true. }
  exists digits. split_and!; [done|by apply Hv|].
  unfold VerifyString. rewrite toIndices_solutionStr by done. by apply Hv.
Qed.

(** X7.  After a successful [Reload] the image written is that of the new
    solution: [WriteImage] hands the digits that [Reload] drew to the
    renderer (the store's time-to-live not being negative). *)
Theorem Reload_then_WriteImage {W : Type} `{!Writer W} (out : W)
    id (width height : Z) (old : list byte) w :
  live (globalStore w) id old →
  0 <= expiration (globalStore w) →
  let fresh := RandomDigits (Z.of_nat (length old)) (entropy w) in
  let m := NewImage id fresh.1 width height fresh.2 in
  (Reload id w).1 = true
  ∧ (WriteImage NewImage encodedPNG out id width height (Reload id w).2).1
    = ((WriteTo encodedPNG m.1 out).1.2, (WriteTo encodedPNG m.1 out).2).
Proof.
  intros Hlive Httl fresh m.
  assert (Heq : Reload id w =
    (true, World (Set_ id fresh.1 (globalStore w)) fresh.2 (stdout w))).
  { unfold Reload. rewrite (Get_live_keep _ _ _ Hlive).
    subst m fresh. by destruct (RandomDigits _ _). }
  rewrite Heq. split; [done|]. cbn [snd].
  unfold WriteImage. cbn [globalStore entropy stdout].
  rewrite (Get_live_keep _ _ _ (Set_live (globalStore w) id fresh.1 Httl)).
  subst m. destruct (NewImage _ _ _ _ _) as [m g]. simpl.
  by destruct (WriteTo encodedPNG m out) as [[n err] out'].
Qed.

End Life.

(** ** More on the handler *)

Lemma substring_prefix (a b : string) :
  String.substring 0 (String.length (a +:+ b) - String.length b) (a +:+ b) = a.
Proof.
  assert (Hlen : (String.length (a +:+ b) - String.length b)%nat
                 = String.length a).
  { assert (Happ : String.length (a +:+ b)
                   = (String.length a + String.length b)%nat).
    { induction a as [|c a IH]; [done|]. simpl. by f_equal. }
    rewrite Happ. lia. }
  rewrite Hlen. clear Hlen.
  induction a as [|c a IH]; simpl; [by destruct b|]. by rewrite IH.
Qed.

Lemma Get_keep_store (s : memoryStore) (id : string) :
  (Get id false s).2 = s.
Proof.
  simpl. unfold memoryStore_Get.
  destruct (entries s !! id) as [[sol e]|]; [|done].
  by destruct (clock s <=? e).
Qed.

Section ServerMore.
Context {Image : Type}.
Variable NewImage : string → list byte → Z → Z → RNG → Image * RNG.
Variable encodedPNG : Image → list byte.
Variable http_NotFound : ResponseWriter → Request → ResponseWriter.
Variable http_ServeContent :
  ResponseWriter → Request → string → list byte → ResponseWriter.
Variable path_Split : string → string * string.
Variable path_Ext : string → string.
Variable path_Base : string → string.

Lemma serve_other_extension {S : Type} `{!Store S} h rw r id ext download
    (w : world S) :
  ext ≠ ".png" →
  serve NewImage encodedPNG http_ServeContent h rw r id ext download w =
    (Some ErrNotFound,
     Header_Set "Expires" "0"
       (Header_Set "Pragma" "no-cache"
          (Header_Set "Cache-Control" "no-cache, no-store, must-revalidate"
                      rw)),
     w).
Proof. intros Hext. unfold serve. by rewrite decide_True. Qed.

(** X8.  [ServeHTTP] reloads before it looks at the extension: a request
    for a named file whose extension is not ".png", carrying a "reload"
    value, is answered with [http.NotFound] and yet has run [Reload] on
    the id, with any store. *)
Theorem ServeHTTP_reloads_before_extension_check {S : Type} `{!Store S}
    h rw r (dir id ext : string) (w : world S) :
  path_Split (URL_Path r) = (dir, id +:+ ext) →
  path_Ext (id +:+ ext) = ext →
  id ≠ "" → ext ≠ "" → ext ≠ ".png" →
  FormValue r "reload" ≠ "" →
  ServeHTTP NewImage encodedPNG http_NotFound http_ServeContent
            path_Split path_Ext path_Base h rw r w
  = (http_NotFound
       (Header_Set "Expires" "0"
          (Header_Set "Pragma" "no-cache"
             (Header_Set "Cache-Control"
                         "no-cache, no-store, must-revalidate" rw))) r,
     (Reload id w).2).
Proof.
  intros Hsplit Hext Hid Hne Hpng Hreload. unfold ServeHTTP.
  rewrite Hsplit, Hext, substring_prefix.
  rewrite decide_False by (intros [?|?]; done).
  rewrite decide_True by done.
  rewrite serve_other_extension by done. by rewrite decide_True.
Qed.

(** X9.  The download flag changes the Content-Type header of a served
    image and nothing else: with and without it [serve] returns the same
    error and leaves the same package state; on an error the responses are
    the same, and otherwise the same content is served under the same name,
    as "image/png" or as "application/octet-stream". *)
Theorem serve_download_changes_content_type {S : Type} `{!Store S}
    h rw r (id ext : string) (w : world S) :
  let plain :=
    serve NewImage encodedPNG http_ServeContent h rw r id ext false w in
  let download :=
    serve NewImage encodedPNG http_ServeContent h rw r id ext true w in
  plain.1.1 = download.1.1
  ∧ plain.2 = download.2
  ∧ (plain.1.1 ≠ None → plain.1.2 = download.1.2)
  ∧ (plain.1.1 = None →
     ∃ rw0 content,
       header rw0 !! "Content-Type" = Some ["image/png"]
       ∧ plain.1.2 = http_ServeContent rw0 r (id +:+ ext) content
       ∧ download.1.2 =
           http_ServeContent
             (Header_Set "Content-Type" "application/octet-stream" rw0)
             r (id +:+ ext) content).
Proof.
  unfold serve. case_decide; [done|]. simpl.
  destruct (WriteImage _ _ _ _ _ _ _) as [[[e|] content] w']; simpl; [done|].
  split_and!; [done..|]. intros _. eexists _, _. split_and!; [|done..].
  simpl. by rewrite lookup_insert_eq.
Qed.


(** X11.  Serving never uses a challenge up: whatever the request, reload
    or not, every id that is live before [ServeHTTP] is live after it (the
    store's time-to-live not being negative). *)
Theorem ServeHTTP_keeps_live h rw r (id : string) (w : world memoryStore) :
  0 <= expiration (globalStore w) →
  is_live (globalStore w) id →
  is_live
    (globalStore
       (ServeHTTP NewImage encodedPNG http_NotFound http_ServeContent
                  path_Split path_Ext path_Base h rw r w).2) id.
Proof.
  intros Httl Hlive.
  assert (Hreload : ∀ id', is_live (globalStore (Reload id' w).2) id).
  { intros id'. unfold Reload.
    pose proof (Get_keep_store (globalStore w) id') as Hkeep.
    pose proof (Get_Some (globalStore w) id' false) as Hsome.
    destruct (Get id' false (globalStore w)) as [[old|] st];
      simpl in Hkeep; subst st; [|done].
    destruct (RandomDigits _ _) as [fresh g]. simpl.
    destruct (decide (id' = id)) as [->|Hne].
    - exists fresh. by apply Set_live.
    - destruct Hlive as [sol Hsol]. exists sol. by apply Set_keeps_live. }
  assert (Hserve : ∀ w1 id' ext download,
    is_live (globalStore w1) id →
    is_live (globalStore
      (serve NewImage encodedPNG http_ServeContent h rw r id' ext
             download w1).2) id).
  { intros w1 id' ext download Hw1. unfold serve. case_decide; [done|].
    unfold WriteImage.
    pose proof (Get_keep_store (globalStore w1) id') as Hkeep.
    destruct (Get id' false (globalStore w1)) as [[d|] st];
      simpl in Hkeep; subst st; [|done].
    by destruct (NewImage _ _ _ _ _) as [m g]. }
  unfold ServeHTTP. destruct (path_Split (URL_Path r)) as [dir file].
  case_decide; [done|].
  set (id' := String.substring _ _ _). clearbody id'.
  set (w1 := if decide _ then _ else w).
  assert (Hw1 : is_live (globalStore w1) id).
  { subst w1. case_decide; [apply Hreload | done]. }
  clearbody w1. specialize (Hserve w1 id' (path_Ext file)
    (bool_decide (path_Base dir = "download")) Hw1).
  destruct (serve _ _ _ _ _ _ _ _ _ _) as [[err rw'] w2].
  by case_decide.
Qed.

End ServerMore.

(** ** The example program *)

Lemma Verify_live (id : string) (digits : list byte) (w : world memoryStore) :
  digits ≠ [] → live (globalStore w) id digits →
  (Verify id digits w).1 = true
  ∧ entries (globalStore (Verify id digits w).2) !! id = None.
Proof.
  intros Hne Hlive. rewrite Verify_unfold by done.
  rewrite (Get_live_clear _ _ _ Hlive). simpl. split.
  - by apply bool_decide_eq_true.
  - apply lookup_delete_eq.
Qed.

Lemma NewLen_live (randomId : RNG → string * RNG) (L : Z)
    (w : world memoryStore) :
  0 < L → 0 <= expiration (globalStore w) →
  ∃ digits,
    digits ≠ [] ∧ Forall (λ d, 0 <= d < 36) digits
    ∧ live (globalStore (NewLen randomId L w).2) (NewLen randomId L w).1 digits.
Proof.
  intros HL Httl. unfold NewLen.
  destruct (randomId (entropy w)) as [id g1].
  destruct (randomBytesMod_spec L 36 g1) as [Hlen Hrange]; [done|].
  destruct (randomBytesMod L 36 g1) as [digits g2]. simpl in *.
  exists digits. split_and!; [|done|by apply Set_live].
  intros ->. simpl in Hlen. lia.
Qed.

Section ExampleProperties.
Variable randomId : RNG → string * RNG.
Variable http_NotFound : ResponseWriter → Request → ResponseWriter.
Variable http_Error : ResponseWriter → string → Z → ResponseWriter.
Variable formTemplate_Execute :
  ResponseWriter → string → option error * ResponseWriter.
Variable Error_ : error → string.
Variable quoted : string → string.

(** X12.  The example program only reads its own store: whatever requests
    it serves, every call it makes on that store is a [Get] that does not
    consume; it never calls [Set] on it.  (Stated on a store that records
    its calls, wrapped around any store; the package's store is any too.) *)
Theorem example_store_only_read {S : Type} `{!Store S}
    {S' : Type} `{!Store S'} (st st' : app S (S' * list access)) :
  rtc (served randomId http_NotFound http_Error formTemplate_Execute
              Error_ quoted) st st' →
  ∃ calls, (ownStore st').2 = (ownStore st).2 ++ calls
           ∧ Forall (λ a, ∃ id, a = GetCall id false) calls.
Proof.
  induction 1 as [st|st1 st2 st3 Hstep _ (calls & Heq & Hall)].
  { exists []. by rewrite app_nil_r. }
  assert (Hone : ∃ calls1, (ownStore st2).2 = (ownStore st1).2 ++ calls1
                   ∧ Forall (λ a, ∃ id, a = GetCall id false) calls1).
  { destruct Hstep as [rw r|rw r].
    - unfold showFormHandler. case_decide.
      { exists []. by rewrite app_nil_r. }
      destruct (New randomId (package st1)) as [id pkg]. simpl.
      destruct (Get id false (ownStore st1).1) as [solution own].
      destruct (formTemplate_Execute rw id) as [[e|] rw1]; simpl;
        (eexists [_]; split; [done|]; apply Forall_singleton; by eexists).
    - unfold processFormHandler. simpl.
      destruct (Get (FormValue r "captchaId") false (ownStore st1).1)
        as [solution own].
      destruct (VerifyString _ _ _) as [ok pkg]. simpl.
      eexists [_]. split; [done|]. apply Forall_singleton. by eexists. }
  destruct Hone as (calls1 & Heq1 & Hall1).
  exists (calls1 ++ calls). split.
  - by rewrite Heq, Heq1, app_assoc.
  - by apply Forall_app.
Qed.

(** X13.  The store of the example program is not the store of the
    package, and nothing is ever set in it: starting empty (as
    [NewMemoryStore] makes it) it stays empty whatever requests are
    served, so every lookup in it misses and each line the program logs
    shows an empty solution. *)
Theorem example_shows_no_solution {S : Type} `{!Store S}
    (st st' : app S memoryStore) :
  entries (ownStore st) = ∅ →
  rtc (served randomId http_NotFound http_Error formTemplate_Execute
              Error_ quoted) st st' →
  entries (ownStore st') = ∅
  ∧ ∀ l, l ∈ logged st' → l ∈ logged st ∨ shown l = "".
Proof.
  intros Hempty Hhist. revert Hempty.
  induction Hhist as [st|st1 st2 st3 Hstep _ IH]; intros Hempty.
  { split; [done|]. by left. }
  assert (Hget : ∀ id, Get id false (ownStore st1) = (None, ownStore st1)).
  { intros id. simpl. unfold memoryStore_Get. by rewrite Hempty, lookup_empty. }
  assert (Hone : entries (ownStore st2) = ∅
                 ∧ ∀ l, l ∈ logged st2 → l ∈ logged st1 ∨ shown l = "").
  { destruct Hstep as [rw r|rw r].
    - unfold showFormHandler. case_decide; [split; [done|]; by left|].
      destruct (New randomId (package st1)) as [id pkg]. rewrite Hget.
      destruct (formTemplate_Execute rw id) as [[e|] rw1]; simpl;
        (split; [done|]; intros l [Hl| ->%list_elem_of_singleton]%elem_of_app;
         [by left | by right]).
    - unfold processFormHandler. rewrite Hget.
      destruct (VerifyString _ _ _) as [ok pkg]. simpl.
      split; [done|]. intros l [Hl| ->%list_elem_of_singleton]%elem_of_app;
        [by left | by right]. }
  destruct Hone as [Hempty2 Hlog2]. destruct (IH Hempty2) as [Hempty3 Hlog3].
  split; [done|]. intros l Hl. destruct (Hlog3 l Hl) as [Hl2|?]; [|by right].
  by apply Hlog2.
Qed.

(** X14.  The example end to end: the form handler issues a challenge of
    six classes; the form posted back with its id and the text of its
    solution is answered with the success message, and the challenge is
    gone afterwards (the package's store being the default one, with a
    time-to-live that is not negative). *)
Theorem example_right_answer {S' : Type} `{!Store S'}
    rw1 r1 rw2 r2 (st : app memoryStore S') :
  URL_Path r1 = "/" →
  0 <= expiration (globalStore (package st)) →
  let id := (New randomId (package st)).1 in
  let st1 := (showFormHandler randomId http_NotFound http_Error
                              formTemplate_Execute Error_ rw1 r1 st).2 in
  ∃ solution,
    length solution = 6%nat
    ∧ live (globalStore (package st1)) id solution
    ∧ (FormValue r2 "captchaId" = id →
       FormValue r2 "captchaSolution" = solutionStr solution →
       let reply := processFormHandler quoted rw2 r2 st1 in
       sent reply.1 =
         sent rw2
         ++ bytes_of_string ("Great job, human! You solved the captcha." +:+ LF)
         ++ bytes_of_string "<br><a href='/'>Try another one</a>"
       ∧ ¬ is_live (globalStore (package reply.2)) id).
Proof.
  intros Hpath Httl id st1.
  assert (Hpkg : package st1 = (New randomId (package st)).2).
  { subst st1. unfold showFormHandler. rewrite decide_False by (by intros []).
    destruct (New randomId (package st)) as [id' pkg].
    destruct (Get id' false (ownStore st)) as [solution own].
    by destruct (formTemplate_Execute rw1 id') as [[e|] rw']. }
  rewrite Hpkg. clearbody st1.
  destruct (NewLen_live randomId DefaultLen (package st))
    as (digits & Hne & Hrange & Hlive); [done..|].
  assert (Hlen : length digits = 6%nat).
  { destruct Hlive as (e & He & _). revert He. unfold NewLen.
    destruct (randomId (entropy (package st))) as [id' g1].
    destruct (randomBytesMod_spec DefaultLen 36 g1) as [Hlen _]; [done|].
    destruct (randomBytesMod DefaultLen 36 g1) as [digits' g2]. simpl in *.
    by intros ->%Set_entry_same. }
  exists digits. split_and!; [done|done|].
  intros Hid Hsol reply. subst reply. unfold processFormHandler.
  rewrite Hid, Hsol, Hpkg.
  destruct (Get id false (ownStore st1)) as [actual own].
  unfold VerifyString. rewrite toIndices_solutionStr by done.
  destruct (Verify_live id digits (New randomId (package st)).2 Hne Hlive)
    as [Hok Hgone].
  destruct (Verify id digits (New randomId (package st)).2) as [ok pkg].
  simpl in Hok, Hgone. subst ok. simpl. split.
  - by rewrite <- app_assoc.
  - by apply absent_not_live.
Qed.

End ExampleProperties.

(** ** Texts that are not ASCII *)

Lemma land_le_r (a b : Z) : 0 <= a → 0 <= b → Z.land a b <= b.
Proof.
  intros Ha Hb. rewrite <- (Z2N.id a), <- (Z2N.id b), <- N2Z.inj_land by done.
  apply N2Z.inj_le, N.land_le_r.
Qed.

Lemma lor_lower_l (a b : Z) : 0 <= a → 0 <= b → a <= Z.lor a b.
Proof.
  intros Ha Hb. pose proof (Z.add_lor_land a b).
  pose proof (land_le_r a b Ha Hb). lia.
Qed.

Lemma lor_lower_r (a b : Z) : 0 <= a → 0 <= b → b <= Z.lor a b.
Proof. intros Ha Hb. rewrite Z.lor_comm. by apply lor_lower_l. Qed.

Lemma masked_nonneg (b m : Z) (k : Z) :
  0 <= m → 0 <= Z.shiftl (Z.land b m) k.
Proof. intros Hm. apply Z.shiftl_nonneg, Z.land_nonneg. by right. Qed.

(** The second byte of a sequence, within the range its lead byte asks
    for, brings at least the bits that keep the code point out of the
    range of a shorter encoding. *)
Lemma lead_lower (b0 b1 size lo hi : Z) :
  lead b0 = Some (size, lo, hi) → lo <= b1 <= hi →
  (size = 2 ∧ 2 <= Z.land b0 0x1F)
  ∨ (size = 3 ∧ (1 <= Z.land b0 0x0F ∨ 32 <= Z.land b1 0x3F))
  ∨ (size = 4 ∧ (1 <= Z.land b0 0x07 ∨ 16 <= Z.land b1 0x3F)).
Proof.
  unfold lead. intros Hlead Hb1.
  assert (H2 : ∀ c, 0xC2 <= c <= 0xDF → 2 <= Z.land c 0x1F).
  { intros c Hc. apply Z.leb_le.
    apply (forallb_range (λ c, 2 <=? Z.land c 0x1F) 0xC2 30);
      [by vm_compute | lia]. }
  assert (H3 : ∀ c, 0xE1 <= c <= 0xEF → 1 <= Z.land c 0x0F).
  { intros c Hc. apply Z.leb_le.
    apply (forallb_range (λ c, 1 <=? Z.land c 0x0F) 0xE1 15);
      [by vm_compute | lia]. }
  assert (H3' : ∀ c, 0xA0 <= c <= 0xBF → 32 <= Z.land c 0x3F).
  { intros c Hc. apply Z.leb_le.
    apply (forallb_range (λ c, 32 <=? Z.land c 0x3F) 0xA0 32);
      [by vm_compute | lia]. }
  assert (H4 : ∀ c, 0xF1 <= c <= 0xF4 → 1 <= Z.land c 0x07).
  { intros c Hc. apply Z.leb_le.
    apply (forallb_range (λ c, 1 <=? Z.land c 0x07) 0xF1 4);
      [by vm_compute | lia]. }
  assert (H4' : ∀ c, 0x90 <= c <= 0xBF → 16 <= Z.land c 0x3F).
  { intros c Hc. apply Z.leb_le.
    apply (forallb_range (λ c, 16 <=? Z.land c 0x3F) 0x90 48);
      [by vm_compute | lia]. }
  repeat case_match; simplify_eq;
    rewrite ?andb_true_iff, ?andb_false_iff, ?Z.leb_le, ?Z.leb_gt,
            ?Z.eqb_eq, ?Z.eqb_neq in *.
  - left. split; [done|]. apply H2. lia.
  - right; left. split; [done|]. right. apply H3'. lia.
  - right; left. split; [done|]. left. apply H3. lia.
  - right; left. split; [done|]. left. apply H3. lia.
  - right; right. split; [done|]. right. apply H4'. lia.
  - right; right. split; [done|]. left. apply H4. lia.
  - right; right. split; [done|]. left. apply H4. lia.
Qed.

(** A byte string that starts with a byte outside ASCII starts, as runes,
    with a rune outside ASCII. *)
Lemma decode_head_not_ascii (b0 : byte) (t : list byte) :
  0x80 <= b0 → ∃ c rest, decode (b0 :: t) = c :: rest ∧ 0x80 <= c.
Proof.
  intros Hb0. cbn [decode]. rewrite (proj2 (Z.ltb_ge _ _)) by done.
  assert (Herr : ∀ rest, ∃ c rest', RuneError :: rest = c :: rest' ∧ 0x80 <= c).
  { intros rest. by eexists _, _. }
  destruct (lead b0) as [[[size lo] hi]|] eqn:Hlead; [|apply Herr].
  destruct t as [|b1 t1]; [apply Herr|].
  destruct ((lo <=? b1) && (b1 <=? hi)) eqn:Hb1; [|apply Herr].
  apply andb_true_iff in Hb1 as [?%Z.leb_le ?%Z.leb_le].
  pose proof (masked_nonneg b0 0x1F 6 ltac:(done)).
  pose proof (masked_nonneg b0 0x0F 12 ltac:(done)).
  pose proof (masked_nonneg b0 0x07 18 ltac:(done)).
  pose proof (masked_nonneg b1 0x3F 6 ltac:(done)).
  pose proof (masked_nonneg b1 0x3F 12 ltac:(done)).
  assert (Hand : ∀ x, 0 <= Z.land x 0x3F).
  { intros x. apply Z.land_nonneg. by right. }
  destruct (lead_lower b0 b1 size lo hi Hlead ltac:(done))
    as [[-> Hlow]|[[-> Hlow]|[-> Hlow]]]; simpl (_ =? _).
  - eexists _, _. split; [done|].
    etrans; [|apply lor_lower_l; [done|apply Hand]].
    rewrite Z.shiftl_mul_pow2 by done. lia.
  - destruct t1 as [|b2 t2]; [apply Herr|].
    destruct (cont b2); [|apply Herr].
    eexists _, _. split; [done|].
    etrans; [|apply lor_lower_l; [|apply Hand]];
      [|apply Z.lor_nonneg; by split].
    destruct Hlow as [Hlow|Hlow].
    + etrans; [|apply lor_lower_l; done].
      rewrite Z.shiftl_mul_pow2 by done. lia.
    + etrans; [|apply lor_lower_r; done].
      rewrite Z.shiftl_mul_pow2 by done. lia.
  - destruct t1 as [|b2 t2]; [apply Herr|].
    destruct (cont b2); [|apply Herr].
    destruct t2 as [|b3 t3]; [apply Herr|].
    destruct (cont b3); [|apply Herr].
    pose proof (masked_nonneg b2 0x3F 6 ltac:(done)).
    eexists _, _. split; [done|].
    etrans; [|apply lor_lower_l; [|apply Hand]];
      [|repeat (apply Z.lor_nonneg; split); done].
    etrans; [|apply lor_lower_l; [|done]];
      [|apply Z.lor_nonneg; by split].
    destruct Hlow as [Hlow|Hlow].
    + etrans; [|apply lor_lower_l; done].
      rewrite Z.shiftl_mul_pow2 by done. lia.
    + etrans; [|apply lor_lower_r; done].
      rewrite Z.shiftl_mul_pow2 by done. lia.
Qed.

Lemma alnum_ascii (c : rune) : alnum c → c < 0x80.
Proof. unfold alnum. lia. Qed.

(** A byte that is no letter or digit shows as a rune that is none. *)
Lemma decode_foreign (s : list byte) :
  (∃ b, b ∈ s ∧ ¬ alnum b) → ∃ c, c ∈ decode s ∧ ¬ alnum c.
Proof.
  induction s as [|b0 t IH]; intros (b & Hin & Hb).
  { by apply elem_of_nil in Hin. }
  destruct (Z.lt_ge_cases b0 0x80) as [Hlt|Hge].
  - cbn [decode]. rewrite (proj2 (Z.ltb_lt _ _)) by done.
    apply elem_of_cons in Hin as [->|Hin].
    + exists b0. split; [left|done].
    + destruct IH as (c & Hc & Hnc); [by exists b|].
      exists c. split; [by right|done].
  - destruct (decode_head_not_ascii b0 t Hge) as (c & rest & -> & Hc).
    exists c. split; [left|]. intros ?%alnum_ascii. lia.
Qed.

(** X15.  [VerifyString] takes ASCII letters and digits only: a text with
    any byte that is not one of 0-9, A-Z, a-z (so any text with a
    character outside ASCII, or ill-formed UTF-8) is answered false before
    the store is reached, with any store. *)
Theorem VerifyString_foreign_byte {S : Type} `{!Store S}
    (id text : string) (w : world S) :
  (∃ b, b ∈ bytes_of_string text ∧ ¬ alnum b) →
  VerifyString id text w = (false, w).
Proof.
  intros Hb. unfold VerifyString.
  by rewrite (toIndices_invalid _ _ (decode_foreign _ Hb)).
Qed.

(** ** Instances of the further properties on the sample data *)

Lemma VerifyString_ignores_case_witness :
  Forall2 (λ a b, upper a = upper b) (runes "aZ9") (runes "Az9")
  ∧ VerifyString "LBm5" "aZ9" sampleWorld = VerifyString "LBm5" "Az9" sampleWorld.
Proof.
  assert (H : Forall2 (λ a b, upper a = upper b) (runes "aZ9") (runes "Az9")).
  { apply (bool_decide_unpack _). vm_compute. exact I. }
  split; [exact H|].
  exact (VerifyString_ignores_case "LBm5" "aZ9" "Az9" sampleWorld H).
Defined.

Lemma VerifyString_solutionStr_witness :
  Forall (λ d, 0 <= d < 36) [5; 6; 7; 8]
  ∧ VerifyString "LBm5" (solutionStr [5; 6; 7; 8]) sampleWorld
    = Verify "LBm5" [5; 6; 7; 8] sampleWorld.
Proof.
  assert (H : Forall (λ d, 0 <= d < 36) [5; 6; 7; 8]).
  { apply (bool_decide_unpack _). vm_compute. exact I. }
  split; [exact H|].
  exact (VerifyString_solutionStr "LBm5" [5; 6; 7; 8] sampleWorld H).
Defined.

Lemma solutionStr_of_answer_witness :
  toIndices (runes "aZ9") [] = Some [10; 35; 9]
  ∧ Forall (λ d, 0 <= d < 36) [10; 35; 9]
  ∧ runes (solutionStr [10; 35; 9]) = upper <$> runes "aZ9".
Proof.
  assert (H : toIndices (runes "aZ9") [] = Some [10; 35; 9]) by reflexivity.
  split; [exact H|].
  exact (solutionStr_of_answer "aZ9" [10; 35; 9] H).
Defined.

Lemma solution_length_fixed_witness :
  rtc (step sample_randomId sample_NewImage id "LBm5")
      sampleWorld (Reload "LBm5" sampleWorld).2
  ∧ live (globalStore sampleWorld) "LBm5" [5; 6; 7; 8]
  ∧ live (globalStore (Reload "LBm5" sampleWorld).2) "LBm5" [3; 10; 17; 24]
  ∧ length [3; 10; 17; 24] = length [5; 6; 7; 8].
Proof.
  assert (H1 : rtc (step sample_randomId sample_NewImage id "LBm5")
                   sampleWorld (Reload "LBm5" sampleWorld).2).
  { apply rtc_once. apply step_Reload. }
  assert (H2 : live (globalStore sampleWorld) "LBm5" [5; 6; 7; 8]).
  { exists (1000 + Expiration). split; [reflexivity|]. vm_compute. discriminate. }
  assert (H3 : live (globalStore (Reload "LBm5" sampleWorld).2) "LBm5"
                    [3; 10; 17; 24]).
  { exists (1000 + Expiration). split; [reflexivity|]. vm_compute. discriminate. }
  split; [exact H1|]. split; [exact H2|]. split; [exact H3|].
  exact (solution_length_fixed sample_randomId sample_NewImage id "LBm5"
           sampleWorld _ [5; 6; 7; 8] [3; 10; 17; 24] H1 H2 H3).
Defined.

Lemma zero_length_never_verified_witness :
  rtc (step sample_randomId sample_NewImage id
            (NewLen sample_randomId 0 sampleWorld).1)
      (NewLen sample_randomId 0 sampleWorld).2
      (NewLen sample_randomId 0 sampleWorld).2
  ∧ (Verify (NewLen sample_randomId 0 sampleWorld).1 [1]
            (NewLen sample_randomId 0 sampleWorld).2).1 = false.
Proof.
  assert (H : rtc (step sample_randomId sample_NewImage id
                        (NewLen sample_randomId 0 sampleWorld).1)
                  (NewLen sample_randomId 0 sampleWorld).2
                  (NewLen sample_randomId 0 sampleWorld).2)
    by apply rtc_refl.
  split; [exact H|].
  exact (proj1 (zero_length_never_verified sample_randomId sample_NewImage id
                  sampleWorld _ H) [1]).
Defined.

Lemma NewLen_then_Verify_witness :
  0 < 4
  ∧ 0 <= expiration (globalStore sampleWorld)
  ∧ ∃ solution,
      live (globalStore (NewLen sample_randomId 4 sampleWorld).2)
           (NewLen sample_randomId 4 sampleWorld).1 solution
      ∧ (Verify (NewLen sample_randomId 4 sampleWorld).1 solution
                (NewLen sample_randomId 4 sampleWorld).2).1 = true
      ∧ (VerifyString (NewLen sample_randomId 4 sampleWorld).1
                      (solutionStr solution)
                      (NewLen sample_randomId 4 sampleWorld).2).1 = true.
Proof.
  assert (H1 : 0 < 4) by lia.
  assert (H2 : 0 <= expiration (globalStore sampleWorld))
    by (vm_compute; discriminate).
  split; [exact H1|]. split; [exact H2|].
  exact (NewLen_then_Verify sample_randomId 4 sampleWorld H1 H2).
Defined.

Lemma Reload_then_WriteImage_witness :
  live (globalStore sampleWorld) "LBm5" [5; 6; 7; 8]
  ∧ 0 <= expiration (globalStore sampleWorld)
  ∧ (Reload "LBm5" sampleWorld).1 = true
  ∧ (WriteImage sample_NewImage id ([] : list Z) "LBm5" 240 80
                (Reload "LBm5" sampleWorld).2).1
    = (None, [3; 10; 17; 24]).
Proof.
  assert (H1 : live (globalStore sampleWorld) "LBm5" [5; 6; 7; 8]).
  { exists (1000 + Expiration). split; [reflexivity|]. vm_compute. discriminate. }
  assert (H2 : 0 <= expiration (globalStore sampleWorld))
    by (vm_compute; discriminate).
  split; [exact H1|]. split; [exact H2|].
  destruct (Reload_then_WriteImage sample_NewImage id ([] : list Z) "LBm5"
              240 80 [5; 6; 7; 8] sampleWorld H1 H2) as [Hr Hw].
  split; [exact Hr|]. rewrite Hw. reflexivity.
Defined.

Lemma ServeHTTP_reloads_before_extension_check_witness :
  go_path_Split (URL_Path (sampleReload "/captcha/LBm5.gif"))
    = ("/captcha/", "LBm5" +:+ ".gif")
  ∧ go_path_Ext ("LBm5" +:+ ".gif") = ".gif"
  ∧ "LBm5" ≠ "" ∧ ".gif" ≠ "" ∧ ".gif" ≠ ".png"
  ∧ FormValue (sampleReload "/captcha/LBm5.gif") "reload" ≠ ""
  ∧ (ServeHTTP sample_NewImage id sample_NotFound sample_ServeContent
               go_path_Split go_path_Ext go_path_Base
               {| imgWidth := 240; imgHeight := 80 |} emptyResponse
               (sampleReload "/captcha/LBm5.gif") sampleWorld).2
    = (Reload "LBm5" sampleWorld).2.
Proof.
  assert (H1 : go_path_Split (URL_Path (sampleReload "/captcha/LBm5.gif"))
               = ("/captcha/", "LBm5" +:+ ".gif")) by reflexivity.
  assert (H2 : go_path_Ext ("LBm5" +:+ ".gif") = ".gif") by reflexivity.
  assert (H3 : "LBm5" ≠ "") by discriminate.
  assert (H4 : ".gif" ≠ "") by discriminate.
  assert (H5 : ".gif" ≠ ".png") by discriminate.
  assert (H6 : FormValue (sampleReload "/captcha/LBm5.gif") "reload" ≠ "")
    by (vm_compute; discriminate).
  split; [exact H1|]. split; [exact H2|]. split; [exact H3|].
  split; [exact H4|]. split; [exact H5|]. split; [exact H6|].
  rewrite (ServeHTTP_reloads_before_extension_check sample_NewImage id
             sample_NotFound sample_ServeContent go_path_Split go_path_Ext
             go_path_Base {| imgWidth := 240; imgHeight := 80 |} emptyResponse
             (sampleReload "/captcha/LBm5.gif") "/captcha/" "LBm5" ".gif"
             sampleWorld H1 H2 H3 H4 H5 H6).
  reflexivity.
Defined.

Lemma serve_download_changes_content_type_witness :
  ∃ rw0 content,
    header rw0 !! "Content-Type" = Some ["image/png"]
    ∧ (serve sample_NewImage id sample_ServeContent
             {| imgWidth := 240; imgHeight := 80 |} emptyResponse
             (sampleRequest "/captcha/download/LBm5.png") "LBm5" ".png"
             true sampleWorld).1.2
      = sample_ServeContent
          (Header_Set "Content-Type" "application/octet-stream" rw0)
          (sampleRequest "/captcha/download/LBm5.png") ("LBm5" +:+ ".png")
          content.
Proof.
  destruct (serve_download_changes_content_type sample_NewImage id
              sample_ServeContent {| imgWidth := 240; imgHeight := 80 |}
              emptyResponse (sampleRequest "/captcha/download/LBm5.png")
              "LBm5" ".png" sampleWorld) as (_ & _ & _ & Hok).
  destruct (Hok eq_refl) as (rw0 & content & Hct & _ & Hdl).
  exists rw0, content. split; [exact Hct | exact Hdl].
Defined.


Lemma ServeHTTP_keeps_live_witness :
  0 <= expiration (globalStore sampleWorld)
  ∧ is_live (globalStore sampleWorld) "LBm5"
  ∧ is_live
      (globalStore
         (ServeHTTP sample_NewImage id sample_NotFound sample_ServeContent
                    go_path_Split go_path_Ext go_path_Base
                    {| imgWidth := 240; imgHeight := 80 |} emptyResponse
                    (sampleReload "/captcha/LBm5.png") sampleWorld).2)
      "LBm5".
Proof.
  assert (H1 : 0 <= expiration (globalStore sampleWorld))
    by (vm_compute; discriminate).
  assert (H2 : is_live (globalStore sampleWorld) "LBm5").
  { exists [5; 6; 7; 8], (1000 + Expiration).
    split; [reflexivity|]. vm_compute. discriminate. }
  split; [exact H1|]. split; [exact H2|].
  exact (ServeHTTP_keeps_live sample_NewImage id sample_NotFound
           sample_ServeContent go_path_Split go_path_Ext go_path_Base
           {| imgWidth := 240; imgHeight := 80 |} emptyResponse
           (sampleReload "/captcha/LBm5.png") "LBm5" sampleWorld H1 H2).
Defined.

Lemma example_store_only_read_witness :
  let st : app memoryStore (memoryStore * list access) :=
    App sampleWorld (NewMemoryStore CollectNum Expiration 1000, []) [] in
  let st' :=
    (processFormHandler id emptyResponse (sampleForm "LBm5" "5678") st).2 in
  rtc (served sample_randomId sample_NotFound sample_Error sample_Execute
              sample_ErrorText id) st st'
  ∧ ∃ calls, (ownStore st').2 = (ownStore st).2 ++ calls
             ∧ Forall (λ a, ∃ id, a = GetCall id false) calls.
Proof.
  intros st st'.
  assert (H : rtc (served sample_randomId sample_NotFound sample_Error
                          sample_Execute sample_ErrorText id) st st').
  { apply rtc_once. apply served_processForm. }
  split; [exact H|].
  exact (example_store_only_read sample_randomId sample_NotFound sample_Error
           sample_Execute sample_ErrorText id st st' H).
Defined.

Lemma example_shows_no_solution_witness :
  let st' :=
    (processFormHandler id emptyResponse (sampleForm "LBm5" "1234")
                        sampleApp).2 in
  entries (ownStore sampleApp) = ∅
  ∧ rtc (served sample_randomId sample_NotFound sample_Error sample_Execute
                sample_ErrorText id) sampleApp st'
  ∧ entries (ownStore st') = ∅
  ∧ ∀ l, l ∈ logged st' → l ∈ logged sampleApp ∨ shown l = "".
Proof.
  intros st'.
  assert (H1 : entries (ownStore sampleApp) = ∅) by reflexivity.
  assert (H2 : rtc (served sample_randomId sample_NotFound sample_Error
                           sample_Execute sample_ErrorText id) sampleApp st').
  { apply rtc_once. apply served_processForm. }
  split; [exact H1|]. split; [exact H2|].
  exact (example_shows_no_solution sample_randomId sample_NotFound
           sample_Error sample_Execute sample_ErrorText id sampleApp st' H1 H2).
Defined.

Lemma example_right_answer_witness :
  URL_Path (sampleRequest "/") = "/"
  ∧ 0 <= expiration (globalStore (package sampleApp))
  ∧ ∃ solution,
      length solution = 6%nat
      ∧ live
          (globalStore
             (package
                (showFormHandler sample_randomId sample_NotFound sample_Error
                                 sample_Execute sample_ErrorText
                                 emptyResponse (sampleRequest "/")
                                 sampleApp).2))
          (New sample_randomId (package sampleApp)).1 solution.
Proof.
  assert (H1 : URL_Path (sampleRequest "/") = "/") by reflexivity.
  assert (H2 : 0 <= expiration (globalStore (package sampleApp)))
    by (vm_compute; discriminate).
  split; [exact H1|]. split; [exact H2|].
  destruct (example_right_answer sample_randomId sample_NotFound sample_Error
              sample_Execute sample_ErrorText id emptyResponse
              (sampleRequest "/") emptyResponse (sampleRequest "/")
              sampleApp H1 H2) as (solution & Hlen & Hlive & _).
  exists solution. split; [exact Hlen | exact Hlive].
Defined.

Lemma VerifyString_foreign_byte_witness :
  (∃ b, b ∈ bytes_of_string "5é78" ∧ ¬ alnum b)
  ∧ VerifyString "LBm5" "5é78" sampleWorld = (false, sampleWorld).
Proof.
  assert (H : ∃ b, b ∈ bytes_of_string "5é78" ∧ ¬ alnum b).
  { exists 0xC3. split.
    - apply list_elem_of_In. vm_compute. tauto.
    - unfold alnum. lia. }
  split; [exact H|].
  exact (VerifyString_foreign_byte "LBm5" "5é78" sampleWorld H).
Defined.

(** The example program logs and shows an empty expected solution, and a
    right answer passes once. *)
Example example_session :
  let shown1 := showFormHandler sample_randomId sample_NotFound sample_Error
                  sample_Execute sample_ErrorText emptyResponse
                  (sampleRequest "/") sampleApp in
  let posted := processFormHandler id emptyResponse
                  (sampleForm "D" "AHOV29") shown1.2 in
  let again := processFormHandler id emptyResponse
                  (sampleForm "D" "AHOV29") posted.2 in
  logged posted.2
    = [LogGenerated "D" ""; LogVerification "D" "" "AHOV29"]
  ∧ sent posted.1
    = bytes_of_string ("Great job, human! You solved the captcha." +:+ LF
                       +:+ "<br><a href='/'>Try another one</a>")
  ∧ sent again.1
    = bytes_of_string ("Wrong captcha solution! No robots allowed!" +:+ LF
                       +:+ "Debug info: Expected , got AHOV29" +:+ LF
                       +:+ "<br><a href='/'>Try another one</a>").
Proof. by vm_compute. Qed.
